(** * Ride-booking analytics: the aggregation and listing contract

    A shallow embedding of the two deployment variants of the analytics
    service:

    - [Main]   embeds [src/api/main.py]: the file-backed variant, whose
      aggregates are SQL queries run by an embedded engine over the CSV file
      and whose listing and lookup work on the in-memory dataframe cache;
    - [Etl]    embeds [src/etl/load_csv_to_postgres.py]: the load step that
      normalizes CSV rows and upserts them into the relational table;
    - [MainDb] embeds [src/api/main_db.py]: the store-backed variant.

    SQL text is embedded by its relational reading: [FROM] is a list of rows,
    [WHERE] is [filter], [GROUP BY] partitions by key, [COUNT(DISTINCT e)]
    counts the distinct non-NULL values of [e], [LIMIT] is [take], and
    [ORDER BY] is left to the engine, which may return any sorted permutation
    (ties are the engine's choice). *)

From Stdlib Require Import Ascii String.
From stdpp Require Import base decidable option list numbers strings.
From stdpp Require Import sorting lexico pretty gmap.


(** ** Text *)

(** The literal quote character that wraps identifiers in the CSV file. *)
Definition quote_char : ascii := "034"%char.

(** [REPLACE(s, c, new)] / [str.replace(c, new)] for a one-character
    pattern: every occurrence of [c] is replaced by [new]. *)
Fixpoint replace_char (c : ascii) (new : string) (s : string) : string :=
  match s with
  | EmptyString => EmptyString
  | String a s' =>
      if decide (a = c) then new +:+ replace_char c new s'
      else String a (replace_char c new s')
  end.

(** The SQL [REPLACE(x, quote, empty)] of [main.py] and the
    [.str.replace(quote, empty, regex=False)] of [normalize_dataframe]. *)
Definition strip_quotes (s : string) : string :=
  replace_char quote_char EmptyString s.

(** The f-string of [get_bookings] and [get_booking_by_id] in [main.py] that
    puts one quote character before and one after the value. *)
Definition wrap_quotes (s : string) : string :=
  String quote_char (s +:+ String quote_char EmptyString).

(** Python truthiness of an [Optional[str]] parameter ([if status:]): it is
    used only when present and non-empty. *)
Definition truthy (p : option string) : option string :=
  match p with
  | Some EmptyString => None
  | Some s => Some s
  | None => None
  end.

Fixpoint string_to_list (s : string) : list ascii :=
  match s with
  | EmptyString => []
  | String a s' => a :: string_to_list s'
  end.

(** The identifier has no quote character in it. *)
Definition quote_free (s : string) : Prop := quote_char ∉ string_to_list s.

Global Instance quote_free_dec s : Decision (quote_free s).
Proof. unfold quote_free. apply _. Defined.

(** [s] without its last character, when that character is a quote. *)
Fixpoint drop_closing_quote (s : string) : option string :=
  match s with
  | EmptyString => None
  | String a EmptyString =>
      if decide (a = quote_char) then Some EmptyString else None
  | String a s' => String a <$> drop_closing_quote s'
  end.

(** The normalization as the specification words it, for comparison with
    [strip_quotes]: one leading and one trailing quote character are removed
    when both are there, and nothing else changes. *)
Definition strip_single_pair (s : string) : string :=
  match s with
  | EmptyString => s
  | String a s' =>
      if decide (a = quote_char) then default s (drop_closing_quote s')
      else s
  end.

(** ** Calendar values *)

Record date := mkDate { d_year : nat; d_month : nat; d_day : nat }.
Record time := mkTime { t_hour : nat; t_minute : nat; t_second : nat }.

Global Instance date_eq_dec : EqDecision date.
Proof. solve_decision. Defined.
Global Instance time_eq_dec : EqDecision time.
Proof. solve_decision. Defined.

(** [EXTRACT(dow FROM d)]: 0 = Sunday ... 6 = Saturday (Gregorian calendar,
    months 1..12). *)
Definition month_offset (m : nat) : nat :=
  nth (m - 1)%nat [0; 3; 2; 5; 0; 3; 5; 1; 4; 6; 2; 4]%nat 0%nat.

Definition extract_dow (d : date) : nat :=
  let y := if decide (d_month d < 3)%nat then (d_year d - 1)%nat else d_year d in
  ((y + y / 4 - y / 100 + y / 400 + month_offset (d_month d) + d_day d) mod 7)%nat.

(** The [CASE EXTRACT(dow FROM Date) WHEN 0 THEN 'Sunday' ... END] of the
    weekday query; no [ELSE] branch, so any other value gives NULL. *)
Definition weekday_name_of (n : nat) : option string :=
  match n with
  | 0 => Some "Sunday" | 1 => Some "Monday" | 2 => Some "Tuesday"
  | 3 => Some "Wednesday" | 4 => Some "Thursday" | 5 => Some "Friday"
  | 6 => Some "Saturday" | _ => None
  end.

Definition two_digits (n : nat) : string :=
  if decide (n < 10)%nat then "0" +:+ pretty n else pretty n.

(** The year as [%Y] / [YYYY] print it: on four digits at least, padded with
    zeros. *)
Definition four_digits (n : nat) : string :=
  if decide (n < 10)%nat then "000" +:+ pretty n
  else if decide (n < 100)%nat then "00" +:+ pretty n
  else if decide (n < 1000)%nat then "0" +:+ pretty n
  else pretty n.

(** [strftime(d, '%Y-%m')] / [TO_CHAR(d, 'YYYY-MM')]. *)
Definition year_month (d : date) : string :=
  four_digits (d_year d) +:+ "-" +:+ two_digits (d_month d).

(** ** Booking records *)

(** One row of the dataset, with the CSV header's columns. [None] is a
    missing value: an empty CSV field, NaN in the dataframe, NULL in SQL. *)
Record row := mkRow {
  Date : option date;
  Time : option time;
  Booking_ID : option string;
  Booking_Status : option string;
  Customer_ID : option string;
  Vehicle_Type : option string;
  Payment_Method : option string
}.

Global Instance row_eq_dec : EqDecision row.
Proof. solve_decision. Defined.

(** ** SQL fragments *)

(** [COUNT(DISTINCT e)] over the rows of one group: the NULLs of [e] are
    skipped, the remaining values are counted once each. *)
Definition count_distinct {R} (e : R → option string) (g : list R) : nat :=
  length (remove_dups (omap e g)).

(** [SELECT key, agg FROM rows GROUP BY key]: one output row per distinct
    key value (NULL is a key like any other), computed from the rows that
    carry it. *)
Definition group_by {R K E} `{EqDecision K}
    (key : R → K) (select : K → list R → E) (rows : list R) : list E :=
  (λ k, select k (filter (λ r, key r = k) rows)) <$> remove_dups (key <$> rows).

(** [FROM v JOIN t ON cond]. *)
Definition join {R T} (cond : R → T → Prop) `{∀ r t, Decision (cond r t)}
    (v : list R) (ts : list T) : list (R * T) :=
  v ≫= λ r, (λ t, (r, t)) <$> filter (cond r) ts.

(** [ORDER BY f DESC] and [ORDER BY k] (ascending, NULLS LAST) as the
    relation read as: may come before. *)
Definition desc {A} (f : A → nat) : relation A := λ a b, (f b ≤ f a)%nat.

Definition asc {A K} `{Lexico K} (k : A → K) : relation A :=
  λ a b, lexico (k a) (k b) ∨ k a = k b.

(** Sort key of a nullable value under NULLS LAST: NULL sorts after every
    value. The second component of a NULL key is a fixed filler. *)
Definition nulls_last {A} (filler : A) (o : option A) : bool * A :=
  match o with
  | Some a => (false, a)
  | None => (true, filler)
  end.

Definition date_key (d : date) : nat * nat * nat := (d_year d, d_month d, d_day d).
Definition time_key (t : time) : nat * nat * nat :=
  (t_hour t, t_minute t, t_second t).

(** Strings compare character by character on their codes. *)
Definition string_key (s : string) : list nat :=
  nat_of_ascii <$> string_to_list s.

Global Instance desc_dec {A} (f : A → nat) : RelDecision (desc f).
Proof. intros a b. unfold desc. apply _. Defined.

(** One execution of a query by the SQL engine. The source fixes the sort
    order but not how ties are broken, so an execution is any function that
    returns a sorted permutation of its input. *)
Class OrderBy : Type := {
  order_by : ∀ {A : Type} (R : relation A) `{!RelDecision R}, list A → list A;
  order_by_perm : ∀ {A : Type} (R : relation A) `{!RelDecision R} (l : list A),
    order_by R l ≡ₚ l;
  order_by_sorted : ∀ {A : Type} (R : relation A) `{!RelDecision R},
    Transitive R → Total R → ∀ l : list A, StronglySorted R (order_by R l)
}.

(** ** Result schemas

    The response models of [main.py] and [main_db.py] (the two files declare
    the same classes) and the row shapes of the endpoints that return plain
    dictionaries. A column that SQL can leave NULL is an [option]: the
    records below are the rows of a query result. The construction of a
    response model from such a row, which refuses a NULL in a required
    field, is [Main.construct]. *)

Module BookingStatusBreakdown.
Record t := mk { booking_status : option string; bookings : nat }.
End BookingStatusBreakdown.

Module HourlyBookings.
Record t := mk { hour : option nat; unique_bookings : nat }.
End HourlyBookings.

Module WeeklyBookings.
Record t := mk {
  weekday_num : option nat;
  weekday_name : option string;
  unique_bookings : nat
}.
End WeeklyBookings.

Module MonthlyBookings.
Record t := mk { month : option string; bookings : nat }.
End MonthlyBookings.

Module VehicleTypeStats.
Record t := mk {
  vehicle_type : option string;
  total_bookings : nat;
  unique_customers : nat
}.
End VehicleTypeStats.

Module PaymentMethodStats.
Record t := mk { payment_method : option string; total_bookings : nat }.
End PaymentMethodStats.

Module TopCustomer.
Record t := mk { customer_id : option string; total_bookings : nat }.
End TopCustomer.

Module CustomerPaymentMethod.
Record t := mk {
  customer_id : option string;
  payment_method : option string;
  bookings_for_method : nat
}.
End CustomerPaymentMethod.

(** The dictionary returned by [get_bookings]. *)
Module BookingsPage.
Record t := mk { bookings : list row; total_found : nat; returned : nat }.
End BookingsPage.

(** What a request is answered with: the body, an [HTTPException] raised by
    the handler, or the framework's rejection of a parameter that violates
    its declared [Query] bounds (answered before the handler is called). *)
Inductive response (A : Type) : Type :=
  | Ok (body : A)
  | HTTPException (status_code : nat) (detail : string)
  | RequestValidationError.
Global Arguments Ok {A} body.
Global Arguments HTTPException {A} status_code detail.
Global Arguments RequestValidationError {A}.

(** A served request: its answer and the number of queries the handler sent
    to the engine ([execute_duckdb_query] / [fetch_all] calls). *)
Record served (A : Type) : Type := mkServed {
  answer : response A;
  queries_executed : nat
}.
Global Arguments mkServed {A} answer queries_executed.
Global Arguments answer {A} s.
Global Arguments queries_executed {A} s.

(** [limit: int = Query(default, ge=lo, le=hi)]: the value the handler
    receives, when the framework lets the request through. *)
Definition Query (default lo hi : Z) (supplied : option Z) : option Z :=
  match supplied with
  | None => Some default
  | Some v => if decide (lo ≤ v ∧ v ≤ hi)%Z then Some v else None
  end.

(** A route with one validated integer parameter in front of a handler that
    sends [n] queries. *)
Definition route_with_limit {A} (default lo hi : Z) (n : nat)
    (handler : nat → response A) (supplied : option Z) : served A :=
  match Query default lo hi supplied with
  | Some v => mkServed (handler (Z.to_nat v)) n
  | None => mkServed RequestValidationError 0
  end.

Global Instance asc_dec {A K} `{Lexico K, !TrichotomyT (@lexico K _),
    !StrictOrder (@lexico K _), EqDecision K} (k : A → K) : RelDecision (asc k).
Proof. intros a b. unfold asc. apply _. Defined.

(** ** The file-backed variant ([src/api/main.py]) *)

Module Main.

(** The process state: the CSV file at [CSV_PATH] and the module-level
    [df_cache]. *)
Record app_state := mkState {
  csv_file : list row;
  df_cache : option (list row)
}.

Definition load_df (σ : app_state) : app_state :=
  {| csv_file := csv_file σ; df_cache := Some (csv_file σ) |}.

Definition save_df (σ : app_state) : app_state :=
  match df_cache σ with
  | Some df => {| csv_file := df; df_cache := Some df |}
  | None => σ
  end.

(** [root]: the [total_bookings] field of the health check. *)
Definition root (σ : app_state) : nat :=
  match df_cache σ with
  | None => 0
  | Some df => length df
  end.

(** The [REPLACE] expressions over the Booking ID and Customer ID columns;
    [REPLACE] of NULL is NULL. *)
Definition booking_id_expr (r : row) : option string :=
  strip_quotes <$> Booking_ID r.
Definition customer_id_expr (r : row) : option string :=
  strip_quotes <$> Customer_ID r.

(** The [WHERE] clause of the payment-method query: the column is neither
    NULL nor the empty string. *)
Definition payment_recorded (r : row) : Prop :=
  Payment_Method r ≠ None ∧ Payment_Method r ≠ Some EmptyString.

Global Instance payment_recorded_dec r : Decision (payment_recorded r).
Proof. unfold payment_recorded. apply _. Defined.

(** The aggregate queries. Each definition of this section is the relation
    that the SELECT statement of the handler of the same name denotes over
    typed rows: the rows the engine returns once it has bound the statement.
    Whether the statement binds on the file at hand, and what the handler
    makes of the rows returned, is in [Handler] below. *)
Section queries.
Context `{OrderBy}.

Definition get_booking_status_breakdown (csv : list row)
    : list BookingStatusBreakdown.t :=
  order_by (desc BookingStatusBreakdown.bookings)
    (group_by Booking_Status
       (λ k g, BookingStatusBreakdown.mk k (count_distinct booking_id_expr g))
       csv).

(** The grouped, unordered part shared by [get_bookings_per_hour] and
    [get_peak_hours]. *)
Definition hourly_groups (csv : list row) : list HourlyBookings.t :=
  group_by (λ r, t_hour <$> Time r)
    (λ k g, HourlyBookings.mk k (count_distinct booking_id_expr g))
    (filter (λ r, is_Some (Time r)) csv).

Definition get_bookings_per_hour (csv : list row) : list HourlyBookings.t :=
  order_by (asc (λ e, nulls_last 0%nat (HourlyBookings.hour e)))
    (hourly_groups csv).

Definition get_bookings_per_weekday (csv : list row)
    : list WeeklyBookings.t :=
  order_by (asc (λ e, nulls_last 0%nat (WeeklyBookings.weekday_num e)))
    (group_by
       (λ r, (extract_dow <$> Date r,
              Date r ≫= λ d, weekday_name_of (extract_dow d)))
       (λ k g, WeeklyBookings.mk k.1 k.2 (count_distinct booking_id_expr g))
       (filter (λ r, is_Some (Date r)) csv)).

Definition get_bookings_per_month (csv : list row)
    : list MonthlyBookings.t :=
  order_by
    (asc (λ e, nulls_last [] (string_key <$> MonthlyBookings.month e)))
    (group_by (λ r, year_month <$> Date r)
       (λ k g, MonthlyBookings.mk k (count_distinct booking_id_expr g))
       (filter (λ r, is_Some (Date r)) csv)).

Definition get_peak_hours (limit : nat) (csv : list row)
    : list HourlyBookings.t :=
  take limit
    (order_by (desc HourlyBookings.unique_bookings) (hourly_groups csv)).

Definition get_vehicle_type_stats (csv : list row)
    : list VehicleTypeStats.t :=
  order_by (desc VehicleTypeStats.total_bookings)
    (group_by Vehicle_Type
       (λ k g, VehicleTypeStats.mk k
                 (count_distinct booking_id_expr g)
                 (count_distinct customer_id_expr g))
       csv).

Definition get_payment_method_stats (csv : list row)
    : list PaymentMethodStats.t :=
  order_by (desc PaymentMethodStats.total_bookings)
    (group_by Payment_Method
       (λ k g, PaymentMethodStats.mk k (count_distinct booking_id_expr g))
       (filter payment_recorded csv)).

(** The grouped part of [get_top_customers], also the body of the
    [top_customer] common table expression before its own ordering. *)
Definition customer_groups (csv : list row) : list TopCustomer.t :=
  group_by customer_id_expr
    (λ k g, TopCustomer.mk k (count_distinct booking_id_expr g))
    csv.

Definition get_top_customers (limit : nat) (csv : list row)
    : list TopCustomer.t :=
  take limit
    (order_by (desc TopCustomer.total_bookings) (customer_groups csv)).

(** [WITH top_customer AS (... ORDER BY total_bookings DESC LIMIT 1)] *)
Definition top_customer (csv : list row) : list TopCustomer.t :=
  take 1 (order_by (desc TopCustomer.total_bookings) (customer_groups csv)).

(** The [ON] condition of the join, the quote-stripped Customer ID of [v]
    against [t.customer_id]: true only when both sides are non-NULL and
    equal. *)
Definition same_customer (v : row) (t : TopCustomer.t) : Prop :=
  is_Some (customer_id_expr v) ∧
  customer_id_expr v = TopCustomer.customer_id t.

Global Instance same_customer_dec v t : Decision (same_customer v t).
Proof. unfold same_customer. apply _. Defined.

Definition get_top_customer_payment_methods (csv : list row)
    : list CustomerPaymentMethod.t :=
  order_by (desc CustomerPaymentMethod.bookings_for_method)
    (group_by
       (λ vt : row * TopCustomer.t,
          (TopCustomer.customer_id vt.2, Payment_Method vt.1))
       (λ k g, CustomerPaymentMethod.mk k.1 k.2
                 (count_distinct (λ vt, booking_id_expr vt.1) g))
       (join same_customer csv (top_customer csv))).
End queries.

(** One step of the dataframe filtering in [get_bookings]:
    [if p: df = df[df[col] == value]]. *)
Definition filter_eq (col : row → option string) (p : option string)
    (value : string → string) (df : list row) : list row :=
  match truthy p with
  | Some v => filter (λ r, col r = Some (value v)) df
  | None => df
  end.

Definition filtered_df (status vehicle_type customer_id : option string)
    (df : list row) : list row :=
  filter_eq Customer_ID customer_id wrap_quotes
    (filter_eq Vehicle_Type vehicle_type id
       (filter_eq Booking_Status status id df)).

(** [get_bookings]; [limit] is the validated parameter (at least 1), and
    the dataframe's NaN cells are the rows' [None] fields. The handler
    reads the state and hands it back as it found it. *)
Definition get_bookings (limit : nat)
    (status vehicle_type customer_id : option string) (σ : app_state)
    : response BookingsPage.t * app_state :=
  match df_cache σ with
  | None => (HTTPException 500 "Data not loaded", σ)
  | Some df =>
      let filtered := filtered_df status vehicle_type customer_id df in
      let result := take limit filtered in
      (Ok {| BookingsPage.bookings := result;
             BookingsPage.total_found := length filtered;
             BookingsPage.returned := length result |}, σ)
  end.

Definition get_booking_by_id (booking_id : string) (σ : app_state)
    : response row * app_state :=
  match df_cache σ with
  | None => (HTTPException 500 "Data not loaded", σ)
  | Some df =>
      let clean_booking_id := wrap_quotes booking_id in
      match filter (λ r, Booking_ID r = Some clean_booking_id) df with
      | [] => (HTTPException 404 "Booking not found", σ)
      | booking_data :: _ => (Ok booking_data, σ)
      end
  end.

(** The routes whose [limit] parameter carries [Query] bounds. *)
Definition route_peak_hours `{OrderBy} (limit : option Z) (σ : app_state)
    : served (list HourlyBookings.t) :=
  route_with_limit 5 1 24 1 (λ n, Ok (get_peak_hours n (csv_file σ))) limit.

Definition route_top_customers `{OrderBy} (limit : option Z) (σ : app_state)
    : served (list TopCustomer.t) :=
  route_with_limit 10 1 100 1 (λ n, Ok (get_top_customers n (csv_file σ)))
    limit.

Definition route_bookings (limit : option Z)
    (status vehicle_type customer_id : option string) (σ : app_state)
    : served BookingsPage.t :=
  route_with_limit 100 1 1000 0
    (λ n, (get_bookings n status vehicle_type customer_id σ).1) limit.

(** A request to one of the handlers that read the module-level cache. *)
Inductive request : Type :=
  | GetRoot
  | GetBookings (limit : option Z)
      (status vehicle_type customer_id : option string)
  | GetBookingById (booking_id : string).

Inductive reply : Type :=
  | RootReply (total_bookings : nat)
  | BookingsReply (page : served BookingsPage.t)
  | BookingReply (booking : response row).

(** Serving one request: the reply and the state the handler leaves. A
    listing request rejected by the parameter validation never reaches the
    handler. *)
Definition serve (req : request) (σ : app_state) : reply * app_state :=
  match req with
  | GetRoot => (RootReply (root σ), σ)
  | GetBookings limit status vehicle_type customer_id =>
      match Query 100 1 1000 limit with
      | Some v =>
          let '(r, σ') :=
            get_bookings (Z.to_nat v) status vehicle_type customer_id σ in
          (BookingsReply (mkServed r 0), σ')
      | None => (BookingsReply (mkServed RequestValidationError 0), σ)
      end
  | GetBookingById booking_id =>
      let '(r, σ') := get_booking_by_id booking_id σ in
      (BookingReply r, σ')
  end.

Fixpoint serve_all (reqs : list request) (σ : app_state)
    : list reply * app_state :=
  match reqs with
  | [] => ([], σ)
  | req :: reqs' =>
      let '(r, σ1) := serve req σ in
      let '(rs, σ2) := serve_all reqs' σ1 in
      (r :: rs, σ2)
  end.

(** [lifespan]: [load_df] at startup, the requests served while the
    application runs, [save_df] at shutdown. *)
Definition lifespan (reqs : list request) (σ : app_state)
    : list reply * app_state :=
  let '(rs, σ') := serve_all reqs (load_df σ) in
  (rs, save_df σ').

(** *** The aggregate handlers

    The definitions of section [queries] above are the relations that the
    SELECT statements of the handlers denote over rows whose cells are
    already dates, times and strings. A handler does two more things, and
    either can fail: [execute_duckdb_query] has the engine read the file and
    bind the statement against the column types it detects, and five of the
    handlers build a response model from every row of the result. *)

(** The exceptions that leave a handler uncaught: the engine refusing to
    bind a query, and a response model refusing a value. The framework
    answers such a request with status 500. *)
Inductive exception : Type :=
  | BinderException
  | ValidationError.

Inductive outcome (A : Type) : Type :=
  | Returns (body : A)
  | Raises (e : exception).
Global Arguments Returns {A} body.
Global Arguments Raises {A} e.

(** The columns that the queries hand to [EXTRACT] or [strftime]. *)
Inductive temporal_column : Type := DateColumn | TimeColumn.

(** The number of leading rows from which [read_csv_auto] detects the types
    of the columns (the engine's default). *)
Definition sample_size : nat := Z.to_nat 20480.

(** [read_csv_auto] gives a column the type DATE or TIME when it finds such
    values in the sample; with no value there (a header-only file, or every
    sampled cell empty) the column is read as text. *)
Definition read_as_text (c : temporal_column) (csv : list row) : Prop :=
  match c with
  | DateColumn => Forall (λ r, Date r = None) (take sample_size csv)
  | TimeColumn => Forall (λ r, Time r = None) (take sample_size csv)
  end.

Global Instance read_as_text_dec c csv : Decision (read_as_text c csv).
Proof. destruct c; unfold read_as_text; apply _. Defined.

(** [execute_duckdb_query]: the engine binds the statement before it runs
    it, and no [EXTRACT] or [strftime] binds to a text operand. [operands]
    are the columns the statement applies them to, [result] the relation the
    statement denotes. The exception is not caught, here or in a handler. *)
Definition execute_duckdb_query {E} (operands : list temporal_column)
    (csv : list row) (result : list E) : outcome (list E) :=
  if decide (Exists (λ c, read_as_text c csv) operands)
  then Raises BinderException
  else Returns result.

(** The list comprehension that builds one response model from each record
    of [result.to_dict('records')]: a model whose field is declared [str] or
    [int] refuses a NULL. [required e] says that the required fields of [e]
    are not NULL; the models built carry the values of the records. *)
Definition construct {E} (required : E → Prop) `{∀ e, Decision (required e)}
    (result : outcome (list E)) : outcome (list E) :=
  match result with
  | Returns records =>
      if decide (Forall required records) then Returns records
      else Raises ValidationError
  | Raises e => Raises e
  end.

Module Handler.
Section handlers.
Context `{OrderBy}.

Definition get_booking_status_breakdown (csv : list row)
    : outcome (list BookingStatusBreakdown.t) :=
  construct (λ e, is_Some (BookingStatusBreakdown.booking_status e))
    (execute_duckdb_query [] csv (Main.get_booking_status_breakdown csv)).

Definition get_bookings_per_hour (csv : list row)
    : outcome (list HourlyBookings.t) :=
  construct (λ e, is_Some (HourlyBookings.hour e))
    (execute_duckdb_query [TimeColumn] csv (Main.get_bookings_per_hour csv)).

Definition get_bookings_per_weekday (csv : list row)
    : outcome (list WeeklyBookings.t) :=
  construct
    (λ e, is_Some (WeeklyBookings.weekday_num e) ∧
          is_Some (WeeklyBookings.weekday_name e))
    (execute_duckdb_query [DateColumn] csv
       (Main.get_bookings_per_weekday csv)).

Definition get_bookings_per_month (csv : list row)
    : outcome (list MonthlyBookings.t) :=
  construct (λ e, is_Some (MonthlyBookings.month e))
    (execute_duckdb_query [DateColumn] csv (Main.get_bookings_per_month csv)).

(** The four handlers that return the result rows as plain dictionaries. *)
Definition get_peak_hours (limit : nat) (csv : list row)
    : outcome (list HourlyBookings.t) :=
  execute_duckdb_query [TimeColumn] csv (Main.get_peak_hours limit csv).

Definition get_vehicle_type_stats (csv : list row)
    : outcome (list VehicleTypeStats.t) :=
  execute_duckdb_query [] csv (Main.get_vehicle_type_stats csv).

Definition get_payment_method_stats (csv : list row)
    : outcome (list PaymentMethodStats.t) :=
  execute_duckdb_query [] csv (Main.get_payment_method_stats csv).

Definition get_top_customers (limit : nat) (csv : list row)
    : outcome (list TopCustomer.t) :=
  execute_duckdb_query [] csv (Main.get_top_customers limit csv).

Definition get_top_customer_payment_methods (csv : list row)
    : outcome (list CustomerPaymentMethod.t) :=
  construct
    (λ e, is_Some (CustomerPaymentMethod.customer_id e) ∧
          is_Some (CustomerPaymentMethod.payment_method e))
    (execute_duckdb_query [] csv (Main.get_top_customer_payment_methods csv)).
End handlers.
End Handler.

End Main.

(** ** The load step ([src/etl/load_csv_to_postgres.py]) *)

Module Etl.

(** [.astype(str)] on an identifier column. A present identifier is kept as
    it is. A missing one becomes the text nan with the object columns of
    pandas before version 3; what is proved below of the rows of a file in
    relation to the rows of the table is stated for files whose identifiers
    are present (see [complete]). *)
Definition astype_str (v : option string) : string :=
  match v with
  | Some s => s
  | None => "nan"
  end.

(** [normalize_dataframe], row by row: both identifier columns lose their
    quote characters and a missing payment method becomes the empty string
    ([fillna]). Dates and times are the parsed values of the row. The
    function renames the columns to those of the table ([Date] to [date],
    [Booking ID] to [booking_id] and so on); a table row is written with the
    same record, each field standing for the renamed column, so the input is
    always a frame with the CSV header and the output one with the table's
    columns: the code cannot be applied to its own output. *)
Definition normalize_row (r : row) : row :=
  {| Date := Date r;
     Time := Time r;
     Booking_ID := Some (strip_quotes (astype_str (Booking_ID r)));
     Booking_Status := Booking_Status r;
     Customer_ID := Some (strip_quotes (astype_str (Customer_ID r)));
     Vehicle_Type := Vehicle_Type r;
     Payment_Method := Some (default EmptyString (Payment_Method r)) |}.

Definition normalize_dataframe (df : list row) : list row :=
  normalize_row <$> df.

(** [chunk_iterable]: the slices [items[i : i + size]] for [i] in
    [range(0, len(items), size)], with [size] at least 1. *)
Definition chunk_iterable {A} (items : list A) (size : nat) : list (list A) :=
  (λ j, take size (drop (j * size) items))
    <$> seq 0 ((length items + size - 1) / size).

(** [INSERT ... ON CONFLICT DO NOTHING] on the unique [booking_id] column,
    for one row: the table and the row count. *)
Definition insert_do_nothing (table : list row) (r : row) : list row * nat :=
  if decide (Booking_ID r ∈ Booking_ID <$> table) then (table, 0%nat)
  else (table ++ [r], 1%nat).

(** One multi-row [INSERT ... ON CONFLICT DO NOTHING] statement: a row is
    skipped when it conflicts with the table or with an earlier row of the
    same statement. The result is the table and the statement's rowcount. *)
Definition insert_batch (table : list row) (batch : list row)
    : list row * nat :=
  foldl
    (λ acc r,
       let '(table', n) := insert_do_nothing acc.1 r in
       (table', (acc.2 + n)%nat))
    (table, 0%nat) batch.

(** [upsert_rows]: one statement per batch, the inserted rows added up. *)
Definition upsert_rows (table : list row) (rows : list row) (batch_size : nat)
    : list row * nat :=
  foldl
    (λ acc batch,
       let '(table', rowcount) := insert_batch acc.1 batch in
       (table', (acc.2 + rowcount)%nat))
    (table, 0%nat) (chunk_iterable rows batch_size).

(** [main]: the table after loading the CSV into an empty store. The
    embedding is that of the load of a [complete] file, one with a value in
    every column that [define_schema] declares NOT NULL. What the database
    driver makes of a missing value (it refuses a missing date or time, so
    that nothing is loaded, and stores other missing values as text) is not
    embedded; the properties that relate the rows of a file to the rows of
    its table are stated for complete files. *)
Definition main (csv : list row) : list row :=
  (upsert_rows [] (normalize_dataframe csv) 1000).1.

End Etl.

(** ** The store-backed variant ([src/api/main_db.py]) *)

Module MainDb.

Definition payment_recorded (r : row) : Prop :=
  Payment_Method r ≠ None ∧ Payment_Method r ≠ Some EmptyString.

Global Instance payment_recorded_dec r : Decision (payment_recorded r).
Proof. unfold payment_recorded. apply _. Defined.

(** [ORDER BY date, time, booking_id]: the sort key of a table row. *)
Definition listing_key (r : row)
    : (bool * (nat * nat * nat)) * (bool * (nat * nat * nat))
      * (bool * list nat) :=
  (nulls_last (0, 0, 0)%nat (date_key <$> Date r),
   nulls_last (0, 0, 0)%nat (time_key <$> Time r),
   nulls_last [] (string_key <$> Booking_ID r)).

Section queries.
Context `{OrderBy}.

Definition get_booking_status_breakdown (table : list row)
    : list BookingStatusBreakdown.t :=
  order_by (desc BookingStatusBreakdown.bookings)
    (group_by Booking_Status
       (λ k g, BookingStatusBreakdown.mk k (count_distinct Booking_ID g))
       table).

Definition hourly_groups (table : list row) : list HourlyBookings.t :=
  group_by (λ r, t_hour <$> Time r)
    (λ k g, HourlyBookings.mk k (count_distinct Booking_ID g))
    (filter (λ r, is_Some (Time r)) table).

Definition get_bookings_per_hour (table : list row)
    : list HourlyBookings.t :=
  order_by (asc (λ e, nulls_last 0%nat (HourlyBookings.hour e)))
    (hourly_groups table).

Definition get_bookings_per_weekday (table : list row)
    : list WeeklyBookings.t :=
  order_by (asc (λ e, nulls_last 0%nat (WeeklyBookings.weekday_num e)))
    (group_by
       (λ r, (extract_dow <$> Date r,
              Date r ≫= λ d, weekday_name_of (extract_dow d)))
       (λ k g, WeeklyBookings.mk k.1 k.2 (count_distinct Booking_ID g))
       (filter (λ r, is_Some (Date r)) table)).

Definition get_bookings_per_month (table : list row)
    : list MonthlyBookings.t :=
  order_by
    (asc (λ e, nulls_last [] (string_key <$> MonthlyBookings.month e)))
    (group_by (λ r, year_month <$> Date r)
       (λ k g, MonthlyBookings.mk k (count_distinct Booking_ID g))
       (filter (λ r, is_Some (Date r)) table)).

Definition get_peak_hours (limit : nat) (table : list row)
    : list HourlyBookings.t :=
  take limit
    (order_by (desc HourlyBookings.unique_bookings) (hourly_groups table)).

Definition get_vehicle_type_stats (table : list row)
    : list VehicleTypeStats.t :=
  order_by (desc VehicleTypeStats.total_bookings)
    (group_by Vehicle_Type
       (λ k g, VehicleTypeStats.mk k
                 (count_distinct Booking_ID g)
                 (count_distinct Customer_ID g))
       table).

Definition get_payment_method_stats (table : list row)
    : list PaymentMethodStats.t :=
  order_by (desc PaymentMethodStats.total_bookings)
    (group_by Payment_Method
       (λ k g, PaymentMethodStats.mk k (count_distinct Booking_ID g))
       (filter payment_recorded table)).

Definition customer_groups (table : list row) : list TopCustomer.t :=
  group_by Customer_ID
    (λ k g, TopCustomer.mk k (count_distinct Booking_ID g))
    table.

Definition get_top_customers (limit : nat) (table : list row)
    : list TopCustomer.t :=
  take limit
    (order_by (desc TopCustomer.total_bookings) (customer_groups table)).

Definition top_customer (table : list row) : list TopCustomer.t :=
  take 1
    (order_by (desc TopCustomer.total_bookings) (customer_groups table)).

(** [ON v.customer_id = t.customer_id] *)
Definition same_customer (v : row) (t : TopCustomer.t) : Prop :=
  is_Some (Customer_ID v) ∧ Customer_ID v = TopCustomer.customer_id t.

Global Instance same_customer_dec v t : Decision (same_customer v t).
Proof. unfold same_customer. apply _. Defined.

Definition get_top_customer_payment_methods (table : list row)
    : list CustomerPaymentMethod.t :=
  order_by (desc CustomerPaymentMethod.bookings_for_method)
    (group_by
       (λ vt : row * TopCustomer.t,
          (TopCustomer.customer_id vt.2, Payment_Method vt.1))
       (λ k g, CustomerPaymentMethod.mk k.1 k.2
                 (count_distinct (λ vt, Booking_ID vt.1) g))
       (join same_customer table (top_customer table))).

(** One optional [WHERE] clause: [col = :p], added when [p] is truthy. *)
Definition where_clause (col : row → option string) (p : option string)
    (rows : list row) : list row :=
  match truthy p with
  | Some v => filter (λ r, col r = Some v) rows
  | None => rows
  end.

(** The rows selected by [where_sql]: the clauses joined by AND. *)
Definition where_sql (status vehicle_type customer_id : option string)
    (table : list row) : list row :=
  where_clause Customer_ID customer_id
    (where_clause Vehicle_Type vehicle_type
       (where_clause Booking_Status status table)).

Definition get_bookings (limit : nat)
    (status vehicle_type customer_id : option string) (table : list row)
    : BookingsPage.t :=
  let total := length (where_sql status vehicle_type customer_id table) in
  let rows :=
    take limit
      (order_by (asc listing_key)
         (where_sql status vehicle_type customer_id table)) in
  {| BookingsPage.bookings := rows;
     BookingsPage.total_found := total;
     BookingsPage.returned := length rows |}.

(** [WHERE booking_id = :booking_id LIMIT 1]; the table's unique
    constraint leaves at most one candidate. *)
Definition get_booking_by_id (booking_id : string) (table : list row)
    : response row :=
  match take 1 (filter (λ r, Booking_ID r = Some booking_id) table) with
  | [] => HTTPException 404 "Booking not found"
  | r :: _ => Ok r
  end.

Definition route_peak_hours (limit : option Z) (table : list row)
    : served (list HourlyBookings.t) :=
  route_with_limit 5 1 24 1 (λ n, Ok (get_peak_hours n table)) limit.

Definition route_top_customers (limit : option Z) (table : list row)
    : served (list TopCustomer.t) :=
  route_with_limit 10 1 100 1 (λ n, Ok (get_top_customers n table)) limit.

Definition route_bookings (limit : option Z)
    (status vehicle_type customer_id : option string) (table : list row)
    : served BookingsPage.t :=
  route_with_limit 100 1 1000 2
    (λ n, Ok (get_bookings n status vehicle_type customer_id table)) limit.
End queries.

(** [root]: the row count selected by the health check. *)
Definition root (table : list row) : nat := length table.

End MainDb.

(** ** Engines

    Two executions that break ties differently: a merge sort of the rows as
    scanned, and a merge sort of the rows scanned in reverse. *)

Definition scan_forward : OrderBy :=
  {| order_by := λ A R _ l, merge_sort R l;
     order_by_perm := λ A R _ l, merge_sort_Permutation R l;
     order_by_sorted := λ A R _ _ _ l, StronglySorted_merge_sort R l |}.

Definition scan_backward : OrderBy :=
  {| order_by := λ A R _ l, merge_sort R (reverse l);
     order_by_perm := λ A R _ l,
       transitivity (merge_sort_Permutation R (reverse l))
                    (reverse_Permutation l);
     order_by_sorted := λ A R _ _ _ l,
       StronglySorted_merge_sort R (reverse l) |}.

(** ** The sample dataset of [tests/test_api.py] *)

Definition sample_row (d : nat) (h m : nat) (bid status cid vehicle : string)
    (pay : option string) : row :=
  {| Date := Some (mkDate 2025 9 d);
     Time := Some (mkTime h m 0);
     Booking_ID := Some (wrap_quotes bid);
     Booking_Status := Some status;
     Customer_ID := Some (wrap_quotes cid);
     Vehicle_Type := Some vehicle;
     Payment_Method := pay |}.

Definition SAMPLE_ROWS : list row :=
  [ sample_row 1 8 15 "B001" "Completed" "C001" "Sedan" (Some "Card");
    sample_row 1 9 45 "B002" "Cancelled" "C002" "SUV" (Some "Cash");
    sample_row 2 8 30 "B003" "Completed" "C001" "Sedan" (Some "Card");
    sample_row 3 20 0 "B004" "Completed" "C003" "Bike" None ].

(** The state of the test client: the file written, then [load_df]. *)
Definition sample_state : Main.app_state :=
  Main.load_df {| Main.csv_file := SAMPLE_ROWS; Main.df_cache := None |}.

(** ** Vocabulary of the properties *)

(** The distinct booking identifiers of a set of records, after the quote
    stripping normalization. *)
Definition distinct_bookings (g : list row) : gset string :=
  list_to_set (omap (λ r, strip_quotes <$> Booking_ID r) g).

(** [n] is the number of distinct booking identifiers (after quote stripping)
    among the records of [rows] that satisfy [P]. *)
Definition distinct_booking_count (P : row → Prop) (rows : list row) (n : nat)
    : Prop :=
  ∃ ids : gset string,
    (∀ x, x ∈ ids ↔
          ∃ r, r ∈ rows ∧ P r ∧ strip_quotes <$> Booking_ID r = Some x) ∧
    n = size ids.


(** One equality predicate of the listing: a filter that was supplied and is
    not empty requires the column to equal its value, presented to the column
    by [present]; a filter left out holds of every record. *)
Definition filter_holds (p : option string) (present : string → string)
    (col : option string) : Prop :=
  match truthy p with
  | Some v => col = Some (present v)
  | None => True
  end.

Global Instance filter_holds_dec p present col :
  Decision (filter_holds p present col).
Proof. unfold filter_holds. destruct (truthy p); apply _. Defined.

(** The conjunction of the listing's three equality predicates. The
    file-backed variant presents the customer id wrapped in quotes, the
    store-backed variant as it is. *)
Definition matches_filters (present : string → string)
    (status vehicle_type customer_id : option string) (r : row) : Prop :=
  filter_holds status id (Booking_Status r) ∧
  filter_holds vehicle_type id (Vehicle_Type r) ∧
  filter_holds customer_id present (Customer_ID r).

Global Instance matches_filters_dec present status vehicle_type customer_id r :
  Decision (matches_filters present status vehicle_type customer_id r).
Proof. unfold matches_filters. apply _. Defined.

(** No booking identifier of the record set appears under two different
    statuses. *)
Definition status_determined (rows : list row) : Prop :=
  Forall (λ r1,
    Forall (λ r2,
      is_Some (Booking_ID r1) →
      strip_quotes <$> Booking_ID r1 = strip_quotes <$> Booking_ID r2 →
      Booking_Status r1 = Booking_Status r2) rows) rows.

Global Instance status_determined_dec rows : Decision (status_determined rows).
Proof. unfold status_determined. apply _. Defined.

Global Instance top_customer_eq_dec : EqDecision TopCustomer.t.
Proof. solve_decision. Defined.

(** [top] is the one group with the highest count: every other group of
    [groups] has strictly fewer bookings. *)
Definition sole_top (groups : list TopCustomer.t) (top : TopCustomer.t)
    : Prop :=
  top ∈ groups ∧
  Forall (λ g, g = top ∨
               (TopCustomer.total_bookings g < TopCustomer.total_bookings top)%nat)
    groups.

Global Instance sole_top_dec groups top : Decision (sole_top groups top).
Proof. unfold sole_top. apply _. Defined.

(** Every row of the file has a booking identifier and a customer
    identifier, and no two rows share a booking identifier once the quotes
    are stripped. *)
Definition identified (csv : list row) : Prop :=
  Forall (λ r, is_Some (Booking_ID r) ∧ is_Some (Customer_ID r)) csv ∧
  NoDup ((λ r, strip_quotes <$> Booking_ID r) <$> csv).

Global Instance identified_dec csv : Decision (identified csv).
Proof. unfold identified. apply _. Defined.

(** Every row of the file has a value in each of the columns that
    [define_schema] declares NOT NULL: date, time, booking identifier,
    booking status, customer identifier and vehicle type (the payment method
    is nullable). *)
Definition complete (csv : list row) : Prop :=
  Forall (λ r, is_Some (Date r) ∧ is_Some (Time r) ∧
               is_Some (Booking_ID r) ∧ is_Some (Booking_Status r) ∧
               is_Some (Customer_ID r) ∧ is_Some (Vehicle_Type r)) csv.

Global Instance complete_dec csv : Decision (complete csv).
Proof. unfold complete. apply _. Defined.

(** * Properties *)

(** ** The embedding against the repository's tests *)

Example test_booking_status_breakdown :
  @Main.get_booking_status_breakdown scan_forward SAMPLE_ROWS =
  [ BookingStatusBreakdown.mk (Some "Completed") 3;
    BookingStatusBreakdown.mk (Some "Cancelled") 1 ].
Proof. vm_compute. reflexivity. Qed.

Example test_bookings_per_hour :
  @Main.get_bookings_per_hour scan_forward SAMPLE_ROWS =
  [ HourlyBookings.mk (Some 8) 2; HourlyBookings.mk (Some 9) 1;
    HourlyBookings.mk (Some 20) 1 ]%nat.
Proof. vm_compute. reflexivity. Qed.

Example test_bookings_per_weekday :
  @Main.get_bookings_per_weekday scan_forward SAMPLE_ROWS =
  [ WeeklyBookings.mk (Some 1) (Some "Monday") 2;
    WeeklyBookings.mk (Some 2) (Some "Tuesday") 1;
    WeeklyBookings.mk (Some 3) (Some "Wednesday") 1 ]%nat.
Proof. vm_compute. reflexivity. Qed.

Example test_bookings_per_month :
  @Main.get_bookings_per_month scan_forward SAMPLE_ROWS =
  [ MonthlyBookings.mk (Some "2025-09") 4 ].
Proof. vm_compute. reflexivity. Qed.

Example test_peak_hours_with_limit :
  @Main.get_peak_hours scan_forward 2 SAMPLE_ROWS =
  [ HourlyBookings.mk (Some 8) 2; HourlyBookings.mk (Some 20) 1 ]%nat.
Proof. vm_compute. reflexivity. Qed.

Example test_vehicle_types :
  @Main.get_vehicle_type_stats scan_forward SAMPLE_ROWS =
  [ VehicleTypeStats.mk (Some "Sedan") 2 1;
    VehicleTypeStats.mk (Some "Bike") 1 1;
    VehicleTypeStats.mk (Some "SUV") 1 1 ].
Proof. vm_compute. reflexivity. Qed.

Example test_payment_methods :
  @Main.get_payment_method_stats scan_forward SAMPLE_ROWS =
  [ PaymentMethodStats.mk (Some "Card") 2;
    PaymentMethodStats.mk (Some "Cash") 1 ].
Proof. vm_compute. reflexivity. Qed.

Example test_top_customers_limit :
  @Main.get_top_customers scan_forward 2 SAMPLE_ROWS =
  [ TopCustomer.mk (Some "C001") 2; TopCustomer.mk (Some "C003") 1 ].
Proof. vm_compute. reflexivity. Qed.

Example test_top_customer_payment_methods :
  @Main.get_top_customer_payment_methods scan_forward SAMPLE_ROWS =
  [ CustomerPaymentMethod.mk (Some "C001") (Some "Card") 2 ].
Proof. vm_compute. reflexivity. Qed.

Example test_bookings_list_default_limit :
  (Main.route_bookings None None None None sample_state) =
  mkServed
    (Ok (BookingsPage.mk SAMPLE_ROWS 4 4)) 0.
Proof. vm_compute. reflexivity. Qed.

Example test_bookings_filter_status_vehicle_customer :
  (BookingsPage.total_found <$>
     match (Main.get_bookings 100 (Some "Completed") None None sample_state).1
     with Ok p => Some p | _ => None end) = Some 3%nat ∧
  (BookingsPage.total_found <$>
     match (Main.get_bookings 100 None (Some "Sedan") None sample_state).1
     with Ok p => Some p | _ => None end) = Some 2%nat ∧
  (BookingsPage.total_found <$>
     match (Main.get_bookings 100 None None (Some "C001") sample_state).1
     with Ok p => Some p | _ => None end) = Some 2%nat.
Proof. vm_compute. done. Qed.

Example test_booking_by_id_found_and_not_found :
  (Main.get_booking_by_id "B002" sample_state).1 =
    Ok (sample_row 1 9 45 "B002" "Cancelled" "C002" "SUV" (Some "Cash")) ∧
  (Main.get_booking_by_id "NOPE" sample_state).1 =
    HTTPException 404 "Booking not found".
Proof. vm_compute. done. Qed.

Example test_root_health_and_count : Main.root sample_state = 4.
Proof. reflexivity. Qed.

(** The load step on the sample: four rows inserted, identifiers without
    their quotes, the missing payment method as the empty string; loading
    the same file twice inserts nothing new. *)
Example load_sample_rows :
  Etl.upsert_rows [] (Etl.normalize_dataframe SAMPLE_ROWS) 1000 =
    (Etl.normalize_row <$> SAMPLE_ROWS, 4) ∧
  Booking_ID <$> Etl.main SAMPLE_ROWS =
    [Some "B001"; Some "B002"; Some "B003"; Some "B004"] ∧
  Payment_Method <$> Etl.main SAMPLE_ROWS =
    [Some "Card"; Some "Cash"; Some "Card"; Some EmptyString] ∧
  Etl.upsert_rows (Etl.main SAMPLE_ROWS)
    (Etl.normalize_dataframe SAMPLE_ROWS) 1000 =
    (Etl.main SAMPLE_ROWS, 0).
Proof. by vm_compute. Qed.

Example chunk_iterable_five_by_two :
  Etl.chunk_iterable [1; 2; 3; 4; 5] 2 = [[1; 2]; [3; 4]; [5]].
Proof. reflexivity. Qed.

(** A re-emitted row does not raise any count: the sample file followed by
    a copy of itself has eight rows and the same breakdown. *)
Example duplicate_rows_count_once :
  length (SAMPLE_ROWS ++ SAMPLE_ROWS) = 8 ∧
  @Main.get_booking_status_breakdown scan_forward (SAMPLE_ROWS ++ SAMPLE_ROWS) =
  [ BookingStatusBreakdown.mk (Some "Completed") 3;
    BookingStatusBreakdown.mk (Some "Cancelled") 1 ].
Proof. by vm_compute. Qed.

(** ** Facts about the SQL fragments *)

Lemma elem_of_group_by {R K E} `{EqDecision K}
    (key : R → K) (select : K → list R → E) (rows : list R) (e : E) :
  e ∈ group_by key select rows ↔
  ∃ r, r ∈ rows ∧ e = select (key r) (filter (λ r', key r' = key r) rows).
Proof.
  unfold group_by. rewrite list_elem_of_fmap.
  setoid_rewrite elem_of_remove_dups. setoid_rewrite list_elem_of_fmap.
  split.
  - intros (k & -> & r & -> & Hr). by exists r.
  - intros (r & Hr & ->). exists (key r). split; [done|]. by exists r.
Qed.

Lemma group_by_nil {R K E} `{EqDecision K}
    (key : R → K) (select : K → list R → E) :
  group_by key select [] = [].
Proof. reflexivity. Qed.

Lemma count_distinct_size {R} (e : R → option string) (g : list R) :
  count_distinct e g = size (list_to_set (omap e g) : gset string).
Proof.
  unfold count_distinct.
  rewrite <- (size_list_to_set (C := gset string) (remove_dups (omap e g)))
    by apply NoDup_remove_dups.
  f_equal. apply set_eq. intros x.
  by rewrite !elem_of_list_to_set, elem_of_remove_dups.
Qed.

Lemma elem_of_order_by `{OrderBy} {A} (R : relation A) `{!RelDecision R}
    (l : list A) (x : A) :
  x ∈ order_by R l ↔ x ∈ l.
Proof. by rewrite order_by_perm. Qed.

Lemma order_by_nil `{OrderBy} {A} (R : relation A) `{!RelDecision R} :
  order_by R [] = [].
Proof. apply Permutation_nil_r. apply order_by_perm. Qed.

Lemma length_order_by `{OrderBy} {A} (R : relation A) `{!RelDecision R}
    (l : list A) :
  length (order_by R l) = length l.
Proof. by rewrite order_by_perm. Qed.

Global Instance desc_transitive {A} (f : A → nat) : Transitive (desc f).
Proof. unfold desc. intros x y z ??. lia. Qed.

Global Instance desc_total {A} (f : A → nat) : Total (desc f).
Proof. unfold desc. intros x y. lia. Qed.

Global Instance asc_transitive {A K} `{Lexico K, !StrictOrder (@lexico K _)}
    (k : A → K) : Transitive (asc k).
Proof.
  unfold asc. intros x y z [Hxy|Hxy] [Hyz|Hyz].
  - left. by trans (k y).
  - left. by rewrite <- Hyz.
  - left. by rewrite Hxy.
  - right. congruence.
Qed.

Global Instance asc_total {A K} `{Lexico K, !TrichotomyT (@lexico K _)}
    (k : A → K) : Total (asc k).
Proof.
  unfold asc. intros x y.
  destruct (trichotomy lexico (k x) (k y)) as [?|[?|?]]; auto.
Qed.

Lemma elem_of_take_1 {A} (n : nat) (l : list A) (x : A) :
  x ∈ take n l → x ∈ l.
Proof.
  intros Hx. rewrite <- (take_drop n l). apply elem_of_app. by left.
Qed.

(** ** Facts about the load step *)

Lemma strip_quotes_idemp (s : string) :
  strip_quotes (strip_quotes s) = strip_quotes s.
Proof.
  unfold strip_quotes. induction s as [|a s IH]; simpl; [done|].
  destruct (decide (a = quote_char)) as [->|Hne]; simpl; [done|].
  rewrite decide_False by done. by rewrite IH.
Qed.

Lemma elem_of_insert_batch (table batch : list row) (r : row) :
  r ∈ (Etl.insert_batch table batch).1 → r ∈ table ∨ r ∈ batch.
Proof.
  unfold Etl.insert_batch. generalize 0%nat. revert table.
  induction batch as [|r0 batch IH]; intros table n; simpl; [by left|].
  unfold Etl.insert_do_nothing at 2.
  destruct (decide (Booking_ID r0 ∈ Booking_ID <$> table)); simpl.
  - intros [?|?]%IH; [by left|right; by right].
  - intros [[?| ->%list_elem_of_singleton]%elem_of_app|?]%IH.
    + by left.
    + right. by left.
    + right. by right.
Qed.

Lemma elem_of_chunk_iterable {A} (items batch : list A) (size : nat) (x : A) :
  batch ∈ Etl.chunk_iterable items size → x ∈ batch → x ∈ items.
Proof.
  unfold Etl.chunk_iterable.
  intros (j & -> & _)%list_elem_of_fmap Hx%elem_of_take_1.
  rewrite <- (take_drop (j * size) items). apply elem_of_app. by right.
Qed.

Lemma elem_of_upsert_rows (table rows : list row) (batch_size : nat)
    (r : row) :
  r ∈ (Etl.upsert_rows table rows batch_size).1 → r ∈ table ∨ r ∈ rows.
Proof.
  unfold Etl.upsert_rows. intros Hr.
  assert (r ∈ table ∨
          ∃ batch, batch ∈ Etl.chunk_iterable rows batch_size ∧ r ∈ batch)
    as [?|(batch & Hbatch & Hin)].
  { revert Hr. generalize (Etl.chunk_iterable rows batch_size).
    generalize 0%nat. intros n batches. revert table n.
    induction batches as [|batch batches IH]; intros table n; simpl.
    { by left. }
    destruct (Etl.insert_batch table batch) as [table' rowcount] eqn:Hb. simpl.
    intros [Hr|(b & Hb' & Hr)]%IH.
    - assert (r ∈ (Etl.insert_batch table batch).1)
        as [?|?]%elem_of_insert_batch by (by rewrite Hb).
      + by left.
      + right. exists batch. split; [by left|done].
    - right. exists b. split; [by right|done]. }
  - by left.
  - right. by apply (elem_of_chunk_iterable rows batch batch_size).
Qed.

Lemma elem_of_main (csv : list row) (r : row) :
  r ∈ Etl.main csv → ∃ r0, r0 ∈ csv ∧ r = Etl.normalize_row r0.
Proof.
  unfold Etl.main, Etl.normalize_dataframe.
  intros [Hr|Hr]%elem_of_upsert_rows; [by apply elem_of_nil in Hr|].
  apply list_elem_of_fmap in Hr as (r0 & -> & Hr0). by exists r0.
Qed.

(** The identifiers stored by the load step are already normalized. *)
Lemma main_booking_id_normal (csv : list row) (r : row) :
  r ∈ Etl.main csv → Booking_ID r = strip_quotes <$> Booking_ID r.
Proof.
  intros (r0 & _ & ->)%elem_of_main. simpl.
  by rewrite strip_quotes_idemp.
Qed.

(** ** Distinct-booking counts *)

Lemma elem_of_distinct_bookings (g : list row) (x : string) :
  x ∈ distinct_bookings g ↔
  ∃ r, r ∈ g ∧ strip_quotes <$> Booking_ID r = Some x.
Proof.
  unfold distinct_bookings. by rewrite elem_of_list_to_set, list_elem_of_omap.
Qed.

Lemma count_distinct_bookings {R} (ids : R → option string) (proj : R → row)
    (g : list R) :
  (∀ x, x ∈ g → ids x = strip_quotes <$> Booking_ID (proj x)) →
  count_distinct ids g = size (distinct_bookings (proj <$> g)).
Proof.
  intros Hid. rewrite count_distinct_size. f_equal.
  unfold distinct_bookings. apply set_eq; intros x.
  rewrite !elem_of_list_to_set, !list_elem_of_omap. split.
  - intros (r & Hr & Hx). exists (proj r). split.
    + by apply list_elem_of_fmap_2.
    + by rewrite <- Hid.
  - intros (r & (r' & -> & Hr')%list_elem_of_fmap & Hx). exists r'.
    by rewrite Hid.
Qed.

Lemma distinct_booking_count_filter (P : row → Prop) `{∀ r, Decision (P r)}
    (rows : list row) :
  distinct_booking_count P rows (size (distinct_bookings (filter P rows))).
Proof.
  exists (distinct_bookings (filter P rows)). split; [|done].
  intros x. rewrite elem_of_distinct_bookings.
  setoid_rewrite list_elem_of_filter. split.
  - intros (r & [HP Hr] & Hx). by exists r.
  - intros (r & Hr & HP & Hx). by exists r.
Qed.

Lemma distinct_booking_count_iff (P Q : row → Prop) (rows : list row) (n : nat) :
  (∀ r, r ∈ rows → P r ↔ Q r) →
  distinct_booking_count P rows n → distinct_booking_count Q rows n.
Proof.
  intros HPQ (ids & Hids & ->). exists ids. split; [|done].
  intros x. rewrite Hids. split; intros (r & Hr & HP & Hx); exists r.
  - by rewrite <- HPQ.
  - by rewrite HPQ.
Qed.

Lemma distinct_booking_count_unique (P : row → Prop) (rows : list row)
    (n m : nat) :
  distinct_booking_count P rows n → distinct_booking_count P rows m → n = m.
Proof.
  intros (ids1 & H1 & ->) (ids2 & H2 & ->). f_equal.
  apply set_eq. intros x. by rewrite H1, H2.
Qed.


Lemma elem_of_join {R T} (cond : R → T → Prop) `{∀ r t, Decision (cond r t)}
    (v : list R) (ts : list T) (r : R) (t : T) :
  (r, t) ∈ join cond v ts ↔ r ∈ v ∧ t ∈ ts ∧ cond r t.
Proof.
  unfold join. rewrite list_elem_of_bind. split.
  - intros (r' & (t' & [= -> ->] & [Hc Ht]%list_elem_of_filter)%list_elem_of_fmap
            & Hr').
    done.
  - intros (Hr & Ht & Hc). exists r. split; [|done].
    apply list_elem_of_fmap. exists t. split; [done|].
    by apply list_elem_of_filter.
Qed.


Section distinct_counts.
Context `{OrderBy}.



End distinct_counts.

(** ** What the engine binds and what the response models accept *)

Lemma execute_duckdb_query_binds {E} (operands : list Main.temporal_column)
    (csv : list row) (result : list E) :
  Forall (λ c, ¬ Main.read_as_text c csv) operands →
  Main.execute_duckdb_query operands csv result = Main.Returns result.
Proof.
  intros Hbinds. unfold Main.execute_duckdb_query.
  rewrite decide_False; [done|]. by apply Forall_not_Exists.
Qed.

Lemma execute_duckdb_query_text {E} (operands : list Main.temporal_column)
    (csv : list row) (result : list E) (c : Main.temporal_column) :
  c ∈ operands → Main.read_as_text c csv →
  Main.execute_duckdb_query operands csv result =
    Main.Raises Main.BinderException.
Proof.
  intros Hc Htext. unfold Main.execute_duckdb_query.
  rewrite decide_True; [done|]. apply Exists_exists. by exists c.
Qed.

Lemma read_as_text_nil (c : Main.temporal_column) : Main.read_as_text c [].
Proof. destruct c; unfold Main.read_as_text; rewrite take_nil; constructor. Qed.

Lemma construct_returns {E} (required : E → Prop)
    `{∀ e, Decision (required e)} (records : list E) :
  Forall required records →
  Main.construct required (Main.Returns records) = Main.Returns records.
Proof. intros Hreq. unfold Main.construct. by rewrite decide_True. Qed.


(** ** The empty record set *)

Section empty_dataset.
Context `{OrderBy}.

Lemma queries_of_empty_record_set (limit : nat) :
  (Main.get_booking_status_breakdown [] = [] ∧
   Main.get_bookings_per_hour [] = [] ∧
   Main.get_bookings_per_weekday [] = [] ∧
   Main.get_bookings_per_month [] = [] ∧
   Main.get_peak_hours limit [] = [] ∧
   Main.get_vehicle_type_stats [] = [] ∧
   Main.get_payment_method_stats [] = [] ∧
   Main.get_top_customers limit [] = [] ∧
   Main.get_top_customer_payment_methods [] = []) ∧
  Etl.main [] = [] ∧
  (MainDb.get_booking_status_breakdown [] = [] ∧
   MainDb.get_bookings_per_hour [] = [] ∧
   MainDb.get_bookings_per_weekday [] = [] ∧
   MainDb.get_bookings_per_month [] = [] ∧
   MainDb.get_peak_hours limit [] = [] ∧
   MainDb.get_vehicle_type_stats [] = [] ∧
   MainDb.get_payment_method_stats [] = [] ∧
   MainDb.get_top_customers limit [] = [] ∧
   MainDb.get_top_customer_payment_methods [] = []).
Proof.
  unfold Main.get_booking_status_breakdown, Main.get_bookings_per_hour,
    Main.get_bookings_per_weekday, Main.get_bookings_per_month,
    Main.get_peak_hours, Main.get_vehicle_type_stats,
    Main.get_payment_method_stats, Main.get_top_customers,
    Main.get_top_customer_payment_methods, Main.hourly_groups,
    Main.customer_groups,
    MainDb.get_booking_status_breakdown, MainDb.get_bookings_per_hour,
    MainDb.get_bookings_per_weekday, MainDb.get_bookings_per_month,
    MainDb.get_peak_hours, MainDb.get_vehicle_type_stats,
    MainDb.get_payment_method_stats, MainDb.get_top_customers,
    MainDb.get_top_customer_payment_methods, MainDb.hourly_groups,
    MainDb.customer_groups.
  cbn [filter list_filter join mbind list_bind].
  rewrite !group_by_nil, !order_by_nil, !take_nil.
  repeat split.
Qed.

(** C9 at its failing input. The header-only file is the empty record set
    of the file-backed variant. The engine reads each of its columns as
    text, so the statements that apply EXTRACT or strftime to the Time or to
    the Date column do not bind: the handlers of bookings per hour, per
    weekday and per month and of the peak hours raise a BinderException,
    which nothing catches, instead of returning the empty list. The five
    other file-backed handlers return the empty list, and so do all nine
    aggregates of the store-backed variant on the empty table, whatever the
    engine and the limit. *)
Theorem header_only_file_fails_temporal_queries (limit : nat) :
  (Main.Handler.get_bookings_per_hour [] = Main.Raises Main.BinderException ∧
   Main.Handler.get_bookings_per_weekday [] =
     Main.Raises Main.BinderException ∧
   Main.Handler.get_bookings_per_month [] = Main.Raises Main.BinderException ∧
   Main.Handler.get_peak_hours limit [] = Main.Raises Main.BinderException) ∧
  (Main.Handler.get_booking_status_breakdown [] = Main.Returns [] ∧
   Main.Handler.get_vehicle_type_stats [] = Main.Returns [] ∧
   Main.Handler.get_payment_method_stats [] = Main.Returns [] ∧
   Main.Handler.get_top_customers limit [] = Main.Returns [] ∧
   Main.Handler.get_top_customer_payment_methods [] = Main.Returns []) ∧
  Etl.main [] = [] ∧
  (MainDb.get_booking_status_breakdown [] = [] ∧
   MainDb.get_bookings_per_hour [] = [] ∧
   MainDb.get_bookings_per_weekday [] = [] ∧
   MainDb.get_bookings_per_month [] = [] ∧
   MainDb.get_peak_hours limit [] = [] ∧
   MainDb.get_vehicle_type_stats [] = [] ∧
   MainDb.get_payment_method_stats [] = [] ∧
   MainDb.get_top_customers limit [] = [] ∧
   MainDb.get_top_customer_payment_methods [] = []).
Proof.
  destruct (queries_of_empty_record_set limit)
    as ((Hstatus & _ & _ & _ & _ & Hvehicle & Hpayment & Htop & Hmethods)
        & Hload & Hstore).
  split; [|split; [|by split]].
  - unfold Main.Handler.get_bookings_per_hour,
      Main.Handler.get_bookings_per_weekday,
      Main.Handler.get_bookings_per_month, Main.Handler.get_peak_hours.
    rewrite (execute_duckdb_query_text [Main.TimeColumn] [] _ Main.TimeColumn),
      (execute_duckdb_query_text [Main.TimeColumn] [] _ Main.TimeColumn),
      !(execute_duckdb_query_text [Main.DateColumn] [] _ Main.DateColumn);
      try (by apply read_as_text_nil); try (by left).
    done.
  - unfold Main.Handler.get_booking_status_breakdown,
      Main.Handler.get_vehicle_type_stats,
      Main.Handler.get_payment_method_stats, Main.Handler.get_top_customers,
      Main.Handler.get_top_customer_payment_methods.
    rewrite !execute_duckdb_query_binds by constructor.
    rewrite Hstatus, Hvehicle, Hpayment, Htop, Hmethods.
    rewrite !construct_returns by constructor. done.
Qed.

End empty_dataset.

(** ** Requests *)

(** C10. In the file-backed variant, while the dataframe cache is not loaded,
    every call of the listing handler and of the lookup handler raises the
    internal error 500 with the detail Data not loaded (not a success of any
    kind) and hands the state back unchanged; through the route, the listing
    answers that error for every limit the parameter validation lets in. *)
Theorem unloaded_cache_is_an_internal_error
    (csv : list row) (limit : nat) (supplied : option Z)
    (status vehicle_type customer_id : option string) (booking_id : string) :
  let σ := Main.mkState csv None in
  Main.get_bookings limit status vehicle_type customer_id σ =
    (HTTPException 500 "Data not loaded", σ) ∧
  Main.get_booking_by_id booking_id σ =
    (HTTPException 500 "Data not loaded", σ) ∧
  answer (Main.route_bookings supplied status vehicle_type customer_id σ) =
    match Query 100 1 1000 supplied with
    | Some _ => HTTPException 500 "Data not loaded"
    | None => RequestValidationError
    end.
Proof.
  intros σ. repeat split.
  unfold Main.route_bookings, route_with_limit.
  by destruct (Query 100 1 1000 supplied).
Qed.

Section limits.
Context `{OrderBy}.


End limits.


(** ** Identifier normalization *)

Lemma string_to_list_replace_char (s : string) :
  string_to_list (strip_quotes s) =
  filter (λ c, c ≠ quote_char) (string_to_list s).
Proof.
  unfold strip_quotes. induction s as [|a s IH]; simpl; [done|].
  destruct (decide (a = quote_char)) as [->|Hne].
  - rewrite filter_cons_False by (intros ?; done). exact IH.
  - rewrite filter_cons_True by done. simpl. by rewrite IH.
Qed.

Lemma string_to_list_inj (s1 s2 : string) :
  string_to_list s1 = string_to_list s2 → s1 = s2.
Proof.
  revert s2. induction s1 as [|a s1 IH]; intros [|b s2]; simpl; try done.
  intros [= -> Hs]. f_equal. by apply IH.
Qed.

Lemma string_to_list_app (s1 s2 : string) :
  string_to_list (s1 +:+ s2) = string_to_list s1 ++ string_to_list s2.
Proof. induction s1 as [|a s1 IH]; simpl; [done|]. by rewrite IH. Qed.

Lemma strip_quotes_quote_free (s : string) :
  quote_free s → strip_quotes s = s.
Proof.
  intros Hs. apply string_to_list_inj. rewrite string_to_list_replace_char.
  unfold quote_free in Hs. induction (string_to_list s) as [|a l IH]; [done|].
  apply not_elem_of_cons in Hs as [Ha Hl].
  rewrite filter_cons_True by done. by rewrite IH.
Qed.

Lemma strip_quotes_wrap_quotes (s : string) :
  strip_quotes (wrap_quotes s) = strip_quotes s.
Proof.
  apply string_to_list_inj. unfold wrap_quotes.
  rewrite !string_to_list_replace_char. simpl.
  rewrite filter_cons_False by (intros ?; done).
  rewrite string_to_list_app, filter_app. simpl.
  rewrite filter_cons_False by (intros ?; done).
  rewrite filter_nil. by rewrite app_nil_r.
Qed.

Lemma drop_closing_quote_snoc (s : string) :
  drop_closing_quote (s +:+ String quote_char EmptyString) = Some s.
Proof.
  induction s as [|a s IH]; [done|].
  change (String a s +:+ String quote_char EmptyString)
    with (String a (s +:+ String quote_char EmptyString)).
  simpl. rewrite IH. by destruct s.
Qed.

Lemma strip_single_pair_wrap_quotes (s : string) :
  strip_single_pair (wrap_quotes s) = s.
Proof.
  unfold strip_single_pair, wrap_quotes.
  rewrite decide_True by done. by rewrite drop_closing_quote_snoc.
Qed.

(** C5, as the code has it. The normalization of booking and customer
    identifiers (the [REPLACE] of the SQL expressions and the replace of the
    load step are the same function) removes every quote character of the
    identifier, interior ones included, and keeps every other character in
    place; on an identifier with no quote character inside, wrapped in one
    pair of quotes or not wrapped at all, it returns the identifier without
    the pair, as stripping a single pair does. *)
Theorem strip_quotes_removes_every_quote (s t : string) (r : row) :
  quote_free t →
  string_to_list (strip_quotes s) =
    filter (λ c, c ≠ quote_char) (string_to_list s) ∧
  quote_free (strip_quotes s) ∧
  strip_quotes (wrap_quotes t) = t ∧
  strip_quotes t = t ∧
  strip_quotes (wrap_quotes t) = strip_single_pair (wrap_quotes t) ∧
  Main.booking_id_expr r = strip_quotes <$> Booking_ID r ∧
  Main.customer_id_expr r = strip_quotes <$> Customer_ID r ∧
  Booking_ID (Etl.normalize_row r) =
    Some (strip_quotes (Etl.astype_str (Booking_ID r))) ∧
  Customer_ID (Etl.normalize_row r) =
    Some (strip_quotes (Etl.astype_str (Customer_ID r))).
Proof.
  intros Ht. split; [apply string_to_list_replace_char|]. split.
  { unfold quote_free. rewrite string_to_list_replace_char.
    rewrite list_elem_of_filter. tauto. }
  rewrite strip_single_pair_wrap_quotes, strip_quotes_wrap_quotes.
  rewrite strip_quotes_quote_free by done. done.
Qed.

Lemma strip_quotes_removes_every_quote_witness :
  quote_free "B001" ∧ strip_quotes (wrap_quotes "B001") = "B001".
Proof.
  assert (Hq : quote_free "B001") by compute_done.
  split; [exact Hq|].
  exact (proj1 (proj2 (proj2
    (strip_quotes_removes_every_quote "B001" "B001"
       (sample_row 1 8 15 "B001" "Completed" "C001" "Sedan" None) Hq)))).
Defined.

(** C5 as stated fails: on an identifier with a quote character inside, the
    code removes the interior quote too, where stripping a single pair would
    keep it. *)
Lemma strip_quotes_drops_interior_quote :
  let inner := "A" +:+ String quote_char "B" in
  strip_quotes (wrap_quotes inner) = "AB" ∧
  strip_single_pair (wrap_quotes inner) = inner ∧
  strip_quotes (wrap_quotes inner) ≠ strip_single_pair (wrap_quotes inner).
Proof. by vm_compute. Qed.

(** ** The listing *)

Lemma filter_all {A} (l : list A) : filter (λ _, True) l = l.
Proof.
  induction l as [|a l IH]; [done|].
  rewrite filter_cons_True by done. by rewrite IH.
Qed.

Lemma filter_ext_in {A} (P Q : A → Prop)
    `{∀ x, Decision (P x)} `{∀ x, Decision (Q x)} (l : list A) :
  (∀ x, x ∈ l → P x ↔ Q x) → filter P l = filter Q l.
Proof.
  induction l as [|a l IH]; intros HPQ; [done|].
  assert (P a ↔ Q a) as Ha by (apply HPQ; by left).
  assert (filter P l = filter Q l) as Hl.
  { apply IH. intros x Hx. apply HPQ. by right. }
  destruct (decide (P a)).
  - rewrite !filter_cons_True by tauto. by rewrite Hl.
  - rewrite !filter_cons_False by tauto. done.
Qed.

Lemma filter_eq_spec (col : row → option string) (p : option string)
    (present : string → string) (df : list row) :
  Main.filter_eq col p present df =
  filter (λ r, filter_holds p present (col r)) df.
Proof.
  unfold Main.filter_eq. destruct (truthy p) eqn:Hp.
  - apply filter_ext_in. intros r _. unfold filter_holds. by rewrite Hp.
  - rewrite <- (filter_all df) at 1.
    apply filter_ext_in. intros r _. unfold filter_holds. by rewrite Hp.
Qed.

Lemma where_clause_spec (col : row → option string) (p : option string)
    (rows : list row) :
  MainDb.where_clause col p rows =
  filter (λ r, filter_holds p id (col r)) rows.
Proof.
  unfold MainDb.where_clause. destruct (truthy p) eqn:Hp.
  - apply filter_ext_in. intros r _. unfold filter_holds. by rewrite Hp.
  - rewrite <- (filter_all rows) at 1.
    apply filter_ext_in. intros r _. unfold filter_holds. by rewrite Hp.
Qed.

(** Filtering column by column is filtering by the conjunction. *)
Lemma filtered_df_spec (status vehicle_type customer_id : option string)
    (df : list row) :
  Main.filtered_df status vehicle_type customer_id df =
  filter (matches_filters wrap_quotes status vehicle_type customer_id) df.
Proof.
  unfold Main.filtered_df. rewrite !filter_eq_spec, !list_filter_filter.
  apply filter_ext_in. intros r _. unfold matches_filters. tauto.
Qed.

Lemma where_sql_spec (status vehicle_type customer_id : option string)
    (table : list row) :
  MainDb.where_sql status vehicle_type customer_id table =
  filter (matches_filters id status vehicle_type customer_id) table.
Proof.
  unfold MainDb.where_sql. rewrite !where_clause_spec, !list_filter_filter.
  apply filter_ext_in. intros r _. unfold matches_filters. tauto.
Qed.

Lemma size_list_to_set_le (l : list string) :
  size (list_to_set l : gset string) ≤ length l.
Proof.
  induction l as [|x l IH].
  { by rewrite list_to_set_nil, size_empty. }
  rewrite list_to_set_cons, size_union_alt, size_singleton. simpl.
  assert (size (list_to_set l ∖ {[x]} : gset string)
          ≤ size (list_to_set l : gset string)).
  { apply subseteq_size. intros y. rewrite elem_of_difference. tauto. }
  lia.
Qed.

Lemma length_omap_le {A B} (f : A → option B) (l : list A) :
  length (omap f l) ≤ length l.
Proof.
  induction l as [|a l IH]; [done|].
  change (omap f (a :: l))
    with (match f a with Some y => y :: omap f l | None => omap f l end).
  destruct (f a); simpl; lia.
Qed.

Lemma size_distinct_bookings_le (g : list row) :
  size (distinct_bookings g) ≤ length g.
Proof.
  unfold distinct_bookings.
  etrans; [apply size_list_to_set_le|apply length_omap_le].
Qed.

Lemma NoDup_fmap_filter {A B} (f : A → B) (P : A → Prop)
    `{∀ x, Decision (P x)} (l : list A) :
  NoDup (f <$> l) → NoDup (f <$> filter P l).
Proof.
  induction l as [|a l IH]; [done|].
  rewrite fmap_cons, NoDup_cons. intros [Ha Hl].
  destruct (decide (P a)).
  - rewrite filter_cons_True by done. rewrite fmap_cons, NoDup_cons.
    split; [|by apply IH].
    intros (x & Hx & [_ Hxl]%list_elem_of_filter)%list_elem_of_fmap.
    apply Ha. rewrite Hx. by apply list_elem_of_fmap_2.
  - rewrite filter_cons_False by done. by apply IH.
Qed.

Lemma insert_batch_NoDup (table batch : list row) :
  NoDup (Booking_ID <$> table) →
  NoDup (Booking_ID <$> (Etl.insert_batch table batch).1).
Proof.
  unfold Etl.insert_batch. generalize 0%nat. revert table.
  induction batch as [|r batch IH]; intros table n Htable; [done|].
  simpl. unfold Etl.insert_do_nothing at 2.
  destruct (decide (Booking_ID r ∈ Booking_ID <$> table)) as [Hin|Hnin]; simpl.
  - by apply IH.
  - apply IH. rewrite fmap_app. apply NoDup_app. split; [done|]. split.
    + intros x Hx ->%list_elem_of_singleton. done.
    + apply NoDup_singleton.
Qed.

Lemma upsert_rows_NoDup (table rows : list row) (batch_size : nat) :
  NoDup (Booking_ID <$> table) →
  NoDup (Booking_ID <$> (Etl.upsert_rows table rows batch_size).1).
Proof.
  unfold Etl.upsert_rows. generalize (Etl.chunk_iterable rows batch_size).
  generalize 0%nat. intros n batches. revert table n.
  induction batches as [|batch batches IH]; intros table n Htable; [done|].
  simpl. pose proof (insert_batch_NoDup table batch Htable) as Hb.
  destruct (Etl.insert_batch table batch) as [table' rowcount]. simpl.
  by apply IH.
Qed.

(** The unique constraint: the loaded table has no two rows with the same
    booking identifier. *)
Lemma main_NoDup (csv : list row) : NoDup (Booking_ID <$> Etl.main csv).
Proof. apply upsert_rows_NoDup. constructor. Qed.

Lemma size_distinct_bookings_NoDup (g : list row) :
  NoDup (Booking_ID <$> g) →
  (∀ r, r ∈ g →
     is_Some (Booking_ID r) ∧ Booking_ID r = strip_quotes <$> Booking_ID r) →
  size (distinct_bookings g) = length g.
Proof.
  unfold distinct_bookings. induction g as [|r g IH]; intros Hnd Hg.
  { done. }
  rewrite fmap_cons, NoDup_cons in Hnd. destruct Hnd as [Hr Hnd].
  destruct (Hg r) as [[x Hx] Hnorm]; [by left|].
  change (omap (λ r, strip_quotes <$> Booking_ID r) (r :: g))
    with (match strip_quotes <$> Booking_ID r with
          | Some y => y :: omap (λ r, strip_quotes <$> Booking_ID r) g
          | None => omap (λ r, strip_quotes <$> Booking_ID r) g
          end).
  rewrite <- Hnorm, Hx. rewrite list_to_set_cons, size_union.
  - rewrite size_singleton, IH; [done|done|].
    intros r' Hr'. apply Hg. by right.
  - intros y Hy%elem_of_singleton Hy'. subst y.
    apply elem_of_list_to_set, list_elem_of_omap in Hy' as (r' & Hr' & Hx').
    destruct (Hg r') as [_ Hnorm']; [by right|].
    apply Hr. rewrite Hx, <- Hx', <- Hnorm'. by apply list_elem_of_fmap_2.
Qed.

Section listing.
Context `{OrderBy}.

(** C2, as the code has it. In both variants the listing keeps the records
    that satisfy the conjunction of the supplied, non-empty equality filters
    (the file-backed variant compares the Customer ID column with the
    supplied id wrapped in quotes), truncates after filtering, returns only
    records that satisfy every such filter, and reports as total_found the
    number of matching rows before truncation. That number is never below
    the distinct-booking count of the matching records, and equals it on the
    store-backed table, whose booking identifiers are unique. *)
Theorem listing_filters_then_truncates (limit : nat)
    (status vehicle_type customer_id : option string) (csv df : list row) :
  let matching :=
    filter (matches_filters wrap_quotes status vehicle_type customer_id) df in
  let table := Etl.main csv in
  let selected :=
    filter (matches_filters id status vehicle_type customer_id) table in
  let page := MainDb.get_bookings limit status vehicle_type customer_id table in
  (Main.get_bookings limit status vehicle_type customer_id
     (Main.mkState csv (Some df))).1 =
    Ok {| BookingsPage.bookings := take limit matching;
          BookingsPage.total_found := length matching;
          BookingsPage.returned := limit `min` length matching |} ∧
  Forall (matches_filters wrap_quotes status vehicle_type customer_id)
    (take limit matching) ∧
  size (distinct_bookings matching) ≤ length matching ∧
  BookingsPage.bookings page =
    take limit (order_by (asc MainDb.listing_key) selected) ∧
  Forall (matches_filters id status vehicle_type customer_id)
    (BookingsPage.bookings page) ∧
  BookingsPage.total_found page = length selected ∧
  BookingsPage.returned page = limit `min` length selected ∧
  BookingsPage.total_found page = size (distinct_bookings selected).
Proof.
  intros matching table selected page.
  assert (Hmatching : Forall
    (matches_filters wrap_quotes status vehicle_type customer_id) matching).
  { apply Forall_forall. by intros r [? _]%list_elem_of_filter. }
  assert (Hselected : Forall
    (matches_filters id status vehicle_type customer_id) selected).
  { apply Forall_forall. by intros r [? _]%list_elem_of_filter. }
  assert (Hpage : BookingsPage.bookings page =
    take limit (order_by (asc MainDb.listing_key) selected)).
  { unfold page, MainDb.get_bookings. simpl. by rewrite where_sql_spec. }
  assert (Htotal : BookingsPage.total_found page = length selected).
  { unfold page, MainDb.get_bookings. simpl. by rewrite where_sql_spec. }
  repeat split.
  - unfold Main.get_bookings. simpl. rewrite filtered_df_spec.
    by rewrite length_take.
  - by apply Forall_take.
  - apply size_distinct_bookings_le.
  - done.
  - rewrite Hpage. apply Forall_take.
    apply Forall_forall. intros r Hr%elem_of_order_by.
    by apply (proj1 (Forall_forall _ _) Hselected).
  - done.
  - unfold page, MainDb.get_bookings. simpl.
    by rewrite where_sql_spec, length_take, length_order_by.
  - rewrite Htotal. symmetry. apply size_distinct_bookings_NoDup.
    + apply NoDup_fmap_filter, main_NoDup.
    + intros r [_ Hr]%list_elem_of_filter. split.
      * apply elem_of_main in Hr as (r0 & _ & ->). by eexists.
      * by apply (main_booking_id_normal csv).
Qed.

End listing.

(** C2 as stated fails on its last part: over a file with the same booking
    twice, the listing filtered by status reports two records found, while
    the distinct-booking count of the records with that status (the figure
    the status breakdown reports) is one. It also fails for a filter that is
    supplied empty: the handlers skip it, and the records returned do not
    have the empty status. *)
Lemma listing_total_counts_duplicate_rows :
  let b := sample_row 1 8 15 "B001" "Completed" "C001" "Sedan" (Some "Card") in
  let df := [b; b] in
  let completed :=
    filter (λ r, Booking_Status r = Some "Completed") df in
  (Main.get_bookings 100 (Some "Completed") None None
     (Main.load_df (Main.mkState df None))).1 =
    Ok (BookingsPage.mk df 2 2) ∧
  size (distinct_bookings completed) = 1 ∧
  @Main.get_booking_status_breakdown scan_forward df =
    [BookingStatusBreakdown.mk (Some "Completed") 1] ∧
  2 ≠ size (distinct_bookings completed) ∧
  (Main.get_bookings 100 (Some EmptyString) None None
     (Main.load_df (Main.mkState [b] None))).1 =
    Ok (BookingsPage.mk [b] 1 1) ∧
  Booking_Status b ≠ Some EmptyString.
Proof. by vm_compute. Qed.

(** ** Order of the listing *)

Lemma StronglySorted_take {A} (R : relation A) (n : nat) (l : list A) :
  StronglySorted R l → StronglySorted R (take n l).
Proof.
  intros Hl. revert n. induction Hl as [|a l Hl IH Ha]; intros [|n]; simpl.
  - constructor.
  - constructor.
  - constructor.
  - constructor; [apply IH | by apply Forall_take].
Qed.

(** The store-backed listing is sorted by date, then time, then booking
    identifier, for every table, filter combination, limit and engine. *)
Lemma main_db_listing_sorted `{OrderBy} (limit : nat)
    (status vehicle_type customer_id : option string) (table : list row) :
  StronglySorted (asc MainDb.listing_key)
    (BookingsPage.bookings
       (MainDb.get_bookings limit status vehicle_type customer_id table)).
Proof.
  unfold MainDb.get_bookings. simpl.
  apply StronglySorted_take, order_by_sorted; apply _.
Qed.

(** The file-backed listing is a prefix of the matching rows in the order of
    the file: rows are dropped, never moved. *)
Lemma main_listing_in_file_order (limit : nat)
    (status vehicle_type customer_id : option string) (csv df : list row) :
  ∃ page,
    (Main.get_bookings limit status vehicle_type customer_id
       (Main.mkState csv (Some df))).1 = Ok page ∧
    BookingsPage.bookings page `sublist_of` df.
Proof.
  eexists. split; [reflexivity|]. simpl. rewrite filtered_df_spec.
  etrans; [apply sublist_take|apply sublist_filter].
Qed.

(** C3 at its failing input. A file whose second row is the earlier booking:
    the file-backed listing returns the rows in file order, which is not
    ascending by date, time and booking identifier, while the store-backed
    listing of the same data, loaded, returns them sorted. *)
Theorem file_listing_keeps_file_order :
  let b3 := sample_row 2 8 30 "B003" "Completed" "C001" "Sedan" (Some "Card") in
  let b1 := sample_row 1 8 15 "B001" "Completed" "C001" "Sedan" (Some "Card") in
  let df := [b3; b1] in
  (Main.get_bookings 100 None None None
     (Main.load_df (Main.mkState df None))).1 =
    Ok (BookingsPage.mk [b3; b1] 2 2) ∧
  ¬ StronglySorted (asc MainDb.listing_key) [b3; b1] ∧
  BookingsPage.bookings
    (@MainDb.get_bookings scan_forward 100 None None None (Etl.main df)) =
    [Etl.normalize_row b1; Etl.normalize_row b3].
Proof.
  intros b3 b1 df. split; [by vm_compute|]. split; [|by vm_compute].
  intros Hs. apply StronglySorted_cons in Hs as [Hb _].
  apply Forall_cons in Hb as [Hb _]. revert Hb. compute_done.
Qed.

(** ** Lookup by identifier *)

Lemma quote_free_wrap_quotes (s : string) : ¬ quote_free (wrap_quotes s).
Proof. intros Hs. apply Hs. unfold wrap_quotes. simpl. by left. Qed.

Lemma main_booking_id_quote_free (csv : list row) (r : row) (s : string) :
  r ∈ Etl.main csv → Booking_ID r = Some s → quote_free s.
Proof.
  intros (r0 & _ & ->)%elem_of_main [= <-].
  unfold quote_free. rewrite string_to_list_replace_char.
  rewrite list_elem_of_filter. tauto.
Qed.

(** C4, as the code has it. The lookup takes the identifier as it arrives
    and never strips quotes from it. The file-backed variant answers with a
    cached record whose Booking ID column is the identifier wrapped in one
    pair of quotes (so its quote-stripped id is the quote-stripped
    identifier), or with 404 when no record has that column value; the
    store-backed variant answers with the table record whose normalized
    booking_id is the identifier itself, or with 404. An identifier that
    arrives already wrapped in quotes is therefore a different key: the
    store, whose identifiers carry no quotes, never finds it. *)
Theorem lookup_takes_identifier_as_given
    (csv df : list row) (booking_id : string) :
  let σ := Main.mkState csv (Some df) in
  let table := Etl.main csv in
  match (Main.get_booking_by_id booking_id σ).1 with
  | Ok r =>
      r ∈ df ∧ Booking_ID r = Some (wrap_quotes booking_id) ∧
      strip_quotes <$> Booking_ID r = Some (strip_quotes booking_id)
  | HTTPException code _ =>
      code = 404 ∧ ∀ r, r ∈ df → Booking_ID r ≠ Some (wrap_quotes booking_id)
  | RequestValidationError => False
  end ∧
  match MainDb.get_booking_by_id booking_id table with
  | Ok r => r ∈ table ∧ Booking_ID r = Some booking_id
  | HTTPException code _ =>
      code = 404 ∧ ∀ r, r ∈ table → Booking_ID r ≠ Some booking_id
  | RequestValidationError => False
  end ∧
  MainDb.get_booking_by_id (wrap_quotes booking_id) table =
    HTTPException 404 "Booking not found".
Proof.
  intros σ table. split; [|split].
  - unfold Main.get_booking_by_id. simpl.
    destruct (filter _ df) as [|r l] eqn:Hf; simpl.
    + split; [done|]. intros r Hr Hid.
      assert (r ∈ filter (λ r, Booking_ID r = Some (wrap_quotes booking_id)) df)
        as Hin by (by apply list_elem_of_filter).
      rewrite Hf in Hin. by apply elem_of_nil in Hin.
    + assert (r ∈ filter (λ r, Booking_ID r = Some (wrap_quotes booking_id)) df)
        as [Hid Hr]%list_elem_of_filter by (rewrite Hf; by left).
      repeat split; [done..|].
      rewrite Hid. simpl. by rewrite strip_quotes_wrap_quotes.
  - unfold MainDb.get_booking_by_id.
    destruct (filter _ table) as [|r l] eqn:Hf; simpl.
    + split; [done|]. intros r Hr Hid.
      assert (r ∈ filter (λ r, Booking_ID r = Some booking_id) table)
        as Hin by (by apply list_elem_of_filter).
      rewrite Hf in Hin. by apply elem_of_nil in Hin.
    + assert (r ∈ filter (λ r, Booking_ID r = Some booking_id) table)
        as [Hid Hr]%list_elem_of_filter by (rewrite Hf; by left).
      done.
  - unfold MainDb.get_booking_by_id.
    destruct (filter _ table) as [|r l] eqn:Hf; [done|].
    assert (r ∈ filter (λ r, Booking_ID r = Some (wrap_quotes booking_id)) table)
      as [Hid Hr]%list_elem_of_filter by (rewrite Hf; by left).
    destruct (quote_free_wrap_quotes booking_id).
    by apply (main_booking_id_quote_free csv r).
Qed.

(** C4 as stated fails in both variants: the identifier of a stored booking
    is found when it arrives unquoted and not found when it arrives wrapped
    in quotes. *)
Lemma lookup_of_quoted_identifier_differs :
  let b2 := sample_row 1 9 45 "B002" "Cancelled" "C002" "SUV" (Some "Cash") in
  (Main.get_booking_by_id "B002" sample_state).1 = Ok b2 ∧
  (Main.get_booking_by_id (wrap_quotes "B002") sample_state).1 =
    HTTPException 404 "Booking not found" ∧
  MainDb.get_booking_by_id "B002" (Etl.main SAMPLE_ROWS) =
    Ok (Etl.normalize_row b2) ∧
  MainDb.get_booking_by_id (wrap_quotes "B002") (Etl.main SAMPLE_ROWS) =
    HTTPException 404 "Booking not found".
Proof. by vm_compute. Qed.

(** ** Sum of the status breakdown *)

Lemma size_union_list_le (Xs : list (gset string)) :
  size (⋃ Xs) ≤ sum_list (size <$> Xs).
Proof.
  induction Xs as [|X Xs IH].
  { by rewrite union_list_nil, size_empty. }
  rewrite union_list_cons, fmap_cons, size_union_alt. simpl.
  assert (size (⋃ Xs ∖ X) ≤ size (⋃ Xs)).
  { apply subseteq_size. intros y. rewrite elem_of_difference. tauto. }
  lia.
Qed.

Lemma size_union_list_disjoint {K} (F : K → gset string) (ks : list K) :
  NoDup ks →
  (∀ k1 k2, k1 ∈ ks → k2 ∈ ks → k1 ≠ k2 → F k1 ## F k2) →
  size (⋃ (F <$> ks)) = sum_list (size <$> (F <$> ks)).
Proof.
  induction 1 as [|k ks Hk Hks IH]; intros HF.
  { by rewrite !fmap_nil, union_list_nil, size_empty. }
  rewrite !fmap_cons, union_list_cons, size_union.
  - simpl. rewrite IH; [done|]. intros k1 k2 H1 H2. apply HF; by right.
  - intros x Hx (X & (k' & -> & Hk')%list_elem_of_fmap & Hx')%elem_of_union_list.
    apply (HF k k' ltac:(by left) ltac:(by right)) with x; [|done..].
    intros ->. done.
Qed.

(** The per-status identifier sets cover the identifiers of the whole set. *)
Lemma union_of_status_groups (rows : list row) :
  ⋃ ((λ k, distinct_bookings (filter (λ r, Booking_Status r = k) rows))
       <$> remove_dups (Booking_Status <$> rows)) =
  distinct_bookings rows.
Proof.
  apply set_eq. intros x. rewrite elem_of_union_list. split.
  - intros (X & (k & -> & Hk)%list_elem_of_fmap & Hx).
    apply elem_of_distinct_bookings in Hx
      as (r & [_ Hr]%list_elem_of_filter & Hx).
    apply elem_of_distinct_bookings. by exists r.
  - intros (r & Hr & Hx)%elem_of_distinct_bookings.
    eexists. split.
    + apply list_elem_of_fmap. exists (Booking_Status r). split; [done|].
      apply elem_of_remove_dups. by apply list_elem_of_fmap_2.
    + apply elem_of_distinct_bookings. exists r. split; [|done].
      by apply list_elem_of_filter.
Qed.

Lemma status_groups_disjoint (rows : list row) (k1 k2 : option string) :
  status_determined rows → k1 ≠ k2 →
  distinct_bookings (filter (λ r, Booking_Status r = k1) rows) ##
  distinct_bookings (filter (λ r, Booking_Status r = k2) rows).
Proof.
  intros Hdet Hne x
    (r1 & [Hk1 Hr1]%list_elem_of_filter & Hx1)%elem_of_distinct_bookings
    (r2 & [Hk2 Hr2]%list_elem_of_filter & Hx2)%elem_of_distinct_bookings.
  apply Hne. rewrite <- Hk1, <- Hk2.
  unfold status_determined in Hdet.
  rewrite Forall_forall in Hdet. specialize (Hdet r1 Hr1).
  rewrite Forall_forall in Hdet. apply (Hdet r2 Hr2).
  - destruct (Booking_ID r1); [by eexists|done].
  - by rewrite Hx1, Hx2.
Qed.

(** The sum of a status breakdown, for either variant's identifier
    expression [ids]. *)
Lemma status_breakdown_sum `{OrderBy} (ids : row → option string)
    (rows : list row) :
  (∀ r, r ∈ rows → ids r = strip_quotes <$> Booking_ID r) →
  let out :=
    order_by (desc BookingStatusBreakdown.bookings)
      (group_by Booking_Status
         (λ k g, BookingStatusBreakdown.mk k (count_distinct ids g)) rows) in
  size (distinct_bookings rows)
    ≤ sum_list (BookingStatusBreakdown.bookings <$> out) ∧
  (status_determined rows →
   sum_list (BookingStatusBreakdown.bookings <$> out) =
     size (distinct_bookings rows)).
Proof.
  intros Hids out.
  set (F := λ k, distinct_bookings (filter (λ r, Booking_Status r = k) rows)).
  set (ks := remove_dups (Booking_Status <$> rows)).
  assert (Hsum : sum_list (BookingStatusBreakdown.bookings <$> out) =
                 sum_list (size <$> (F <$> ks))).
  { unfold out. rewrite order_by_perm. unfold group_by.
    rewrite <- !list_fmap_compose. f_equal.
    apply list_fmap_ext. intros _ k _. simpl.
    rewrite (count_distinct_bookings ids id); [by rewrite list_fmap_id|].
    intros r [_ Hr]%list_elem_of_filter. by apply Hids. }
  rewrite Hsum, <- union_of_status_groups. split.
  - apply size_union_list_le.
  - intros Hdet. symmetry. apply size_union_list_disjoint.
    + apply NoDup_remove_dups.
    + intros k1 k2 _ _. by apply status_groups_disjoint.
Qed.

Lemma NoDup_fmap_elem_inj {A B} (f : A → B) (l : list A) (x y : A) :
  NoDup (f <$> l) → x ∈ l → y ∈ l → f x = f y → x = y.
Proof.
  induction l as [|a l IH]; intros Hnd Hx Hy Hxy.
  { by apply elem_of_nil in Hx. }
  rewrite fmap_cons, NoDup_cons in Hnd. destruct Hnd as [Ha Hnd].
  apply elem_of_cons in Hx as [->|Hx]; apply elem_of_cons in Hy as [->|Hy].
  - done.
  - destruct Ha. rewrite Hxy. by apply list_elem_of_fmap_2.
  - destruct Ha. rewrite <- Hxy. by apply list_elem_of_fmap_2.
  - by apply IH.
Qed.

(** In the loaded table a booking identifier belongs to one row, hence to
    one status. *)
Lemma main_status_determined (csv : list row) :
  status_determined (Etl.main csv).
Proof.
  apply Forall_forall. intros r1 Hr1. apply Forall_forall. intros r2 Hr2 _ Hid.
  rewrite <- !(main_booking_id_normal csv) in Hid by done.
  by rewrite (NoDup_fmap_elem_inj Booking_ID (Etl.main csv) r1 r2
                (main_NoDup csv) Hr1 Hr2 Hid).
Qed.

Section status_sum.
Context `{OrderBy}.

(** C7, as the code has it. When no booking identifier of the record set
    appears under two different statuses, the distinct-booking counts of the
    status breakdown add up to the distinct-booking count of the whole set;
    this is always so on a store-backed table (loaded from any file), where
    identifiers are unique. For every record set the sum is at least the
    distinct-booking count of the whole set. *)
Theorem status_breakdown_sums_to_distinct_count (csv loaded : list row) :
  status_determined csv →
  sum_list (BookingStatusBreakdown.bookings <$>
              Main.get_booking_status_breakdown csv) =
    size (distinct_bookings csv) ∧
  sum_list (BookingStatusBreakdown.bookings <$>
              MainDb.get_booking_status_breakdown (Etl.main loaded)) =
    size (distinct_bookings (Etl.main loaded)) ∧
  size (distinct_bookings loaded)
    ≤ sum_list (BookingStatusBreakdown.bookings <$>
                  Main.get_booking_status_breakdown loaded).
Proof.
  intros Hdet. split; [|split].
  - by apply (status_breakdown_sum Main.booking_id_expr csv).
  - apply (status_breakdown_sum Booking_ID (Etl.main loaded)).
    + apply main_booking_id_normal.
    + apply main_status_determined.
  - by apply (status_breakdown_sum Main.booking_id_expr loaded).
Qed.

End status_sum.

Lemma status_breakdown_sums_to_distinct_count_witness :
  status_determined SAMPLE_ROWS ∧
  sum_list (BookingStatusBreakdown.bookings <$>
              @Main.get_booking_status_breakdown scan_forward SAMPLE_ROWS) =
    size (distinct_bookings SAMPLE_ROWS).
Proof.
  assert (Hdet : status_determined SAMPLE_ROWS) by compute_done.
  split; [exact Hdet|].
  exact (proj1 (@status_breakdown_sums_to_distinct_count scan_forward
                  SAMPLE_ROWS SAMPLE_ROWS Hdet)).
Defined.

(** C7 as stated fails: a file that carries the same booking once as
    Completed and once as Cancelled has one distinct booking, and the
    breakdown counts it under both statuses. *)
Lemma status_breakdown_sum_exceeds_distinct_count :
  let df :=
    [ sample_row 1 8 15 "B001" "Completed" "C001" "Sedan" (Some "Card");
      sample_row 1 8 15 "B001" "Cancelled" "C001" "Sedan" (Some "Card") ] in
  sum_list (BookingStatusBreakdown.bookings <$>
              @Main.get_booking_status_breakdown scan_forward df) = 2 ∧
  size (distinct_bookings df) = 1 ∧
  sum_list (BookingStatusBreakdown.bookings <$>
              @Main.get_booking_status_breakdown scan_forward df) ≠
    size (distinct_bookings df).
Proof. by vm_compute. Qed.

(** ** Top customers *)

(** Whatever the engine does with ties, a group that beats every other group
    comes first under [ORDER BY ... DESC]. *)
Lemma order_by_desc_head `{OrderBy} {A} (f : A → nat) (l : list A) (top : A) :
  top ∈ l → Forall (λ x, x = top ∨ f x < f top) l →
  ∃ rest, order_by (desc f) l = top :: rest.
Proof.
  intros Htop Hl.
  pose proof (order_by_sorted (desc f) _ _ l) as Hsorted.
  pose proof (order_by_perm (desc f) l) as Hperm.
  destruct (order_by (desc f) l) as [|h rest].
  { rewrite <- Hperm in Htop. by apply elem_of_nil in Htop. }
  exists rest. f_equal.
  assert (h ∈ l) as Hh by (rewrite <- Hperm; by left).
  rewrite Forall_forall in Hl. destruct (Hl h Hh) as [->|Hlt]; [done|].
  rewrite <- Hperm in Htop. apply elem_of_cons in Htop as [->|Htop]; [done|].
  apply StronglySorted_cons in Hsorted as [Hall _].
  rewrite Forall_forall in Hall. specialize (Hall top Htop).
  unfold desc in Hall. lia.
Qed.

(** The entries of the top customer's payment methods carry the customer id
    selected by the common table expression, for either variant: [cust] and
    [ids] are the variant's identifier expressions. *)
Lemma joined_customer `{OrderBy} (cust ids : row → option string)
    (rows : list row) (top : TopCustomer.t) :
  let cond := λ (v : row) (t : TopCustomer.t),
    is_Some (cust v) ∧ cust v = TopCustomer.customer_id t in
  Forall (λ e, CustomerPaymentMethod.customer_id e =
               TopCustomer.customer_id top)
    (order_by (desc CustomerPaymentMethod.bookings_for_method)
       (group_by
          (λ vt : row * TopCustomer.t,
             (TopCustomer.customer_id vt.2, Payment_Method vt.1))
          (λ k g, CustomerPaymentMethod.mk k.1 k.2
                    (count_distinct (λ vt, ids vt.1) g))
          (join cond rows [top]))).
Proof.
  intros cond. apply Forall_forall.
  intros e ([v t] & Hvt & ->)%elem_of_order_by%elem_of_group_by. simpl.
  apply elem_of_join in Hvt as (_ & Ht%list_elem_of_singleton & _).
  by rewrite Ht.
Qed.

(** C8, as the code has it. For every record set and every limit k from 1
    to 100, in both variants, top-customers returns at most k entries in
    descending order of their distinct-booking counts; and when one customer
    has strictly more distinct bookings than every other, that customer is
    its first entry and the customer of every entry that
    top-customer-payment-methods reports, however the two executions order
    the remaining groups. *)
Theorem top_customers_bounded_sorted_and_leading
    (E1 E2 : OrderBy) (csv table : list row) (k : nat) :
  1 ≤ k ≤ 100 →
  (length (@Main.get_top_customers E1 k csv) ≤ k ∧
   StronglySorted (desc TopCustomer.total_bookings)
     (@Main.get_top_customers E1 k csv) ∧
   ∀ top, sole_top (@Main.customer_groups csv) top →
     head (@Main.get_top_customers E1 k csv) = Some top ∧
     Forall (λ e, CustomerPaymentMethod.customer_id e =
                  TopCustomer.customer_id top)
       (@Main.get_top_customer_payment_methods E2 csv)) ∧
  (length (@MainDb.get_top_customers E1 k table) ≤ k ∧
   StronglySorted (desc TopCustomer.total_bookings)
     (@MainDb.get_top_customers E1 k table) ∧
   ∀ top, sole_top (@MainDb.customer_groups table) top →
     head (@MainDb.get_top_customers E1 k table) = Some top ∧
     Forall (λ e, CustomerPaymentMethod.customer_id e =
                  TopCustomer.customer_id top)
       (@MainDb.get_top_customer_payment_methods E2 table)).
Proof.
  intros Hk. split; (split; [|split]).
  - unfold Main.get_top_customers. rewrite length_take. lia.
  - apply StronglySorted_take, order_by_sorted; apply _.
  - intros top [Hin Hall].
    destruct (@order_by_desc_head E1 _ TopCustomer.total_bookings
                _ top Hin Hall) as [rest1 Hrest1].
    destruct (@order_by_desc_head E2 _ TopCustomer.total_bookings
                _ top Hin Hall) as [rest2 Hrest2].
    split.
    + unfold Main.get_top_customers. rewrite Hrest1.
      destruct k; [lia|done].
    + unfold Main.get_top_customer_payment_methods, Main.top_customer.
      rewrite Hrest2. simpl. rewrite take_0.
      apply (joined_customer Main.customer_id_expr Main.booking_id_expr).
  - unfold MainDb.get_top_customers. rewrite length_take. lia.
  - apply StronglySorted_take, order_by_sorted; apply _.
  - intros top [Hin Hall].
    destruct (@order_by_desc_head E1 _ TopCustomer.total_bookings
                _ top Hin Hall) as [rest1 Hrest1].
    destruct (@order_by_desc_head E2 _ TopCustomer.total_bookings
                _ top Hin Hall) as [rest2 Hrest2].
    split.
    + unfold MainDb.get_top_customers. rewrite Hrest1.
      destruct k; [lia|done].
    + unfold MainDb.get_top_customer_payment_methods, MainDb.top_customer.
      rewrite Hrest2. simpl. rewrite take_0.
      apply (joined_customer Customer_ID Booking_ID).
Qed.

Lemma top_customers_bounded_sorted_and_leading_witness :
  let top := TopCustomer.mk (Some "C001") 2 in
  (1 ≤ 2 ≤ 100 ∧
   sole_top (@Main.customer_groups SAMPLE_ROWS) top ∧
   sole_top (@MainDb.customer_groups (Etl.main SAMPLE_ROWS)) top) ∧
  head (@Main.get_top_customers scan_forward 2 SAMPLE_ROWS) = Some top ∧
  Forall (λ e, CustomerPaymentMethod.customer_id e = Some "C001")
    (@Main.get_top_customer_payment_methods scan_backward SAMPLE_ROWS) ∧
  head (@MainDb.get_top_customers scan_forward 2 (Etl.main SAMPLE_ROWS)) =
    Some top ∧
  Forall (λ e, CustomerPaymentMethod.customer_id e = Some "C001")
    (@MainDb.get_top_customer_payment_methods scan_backward
       (Etl.main SAMPLE_ROWS)).
Proof.
  intros top.
  assert (Hk : 1 ≤ 2 ≤ 100) by lia.
  assert (Hf : sole_top (@Main.customer_groups SAMPLE_ROWS) top)
    by compute_done.
  assert (Hs : sole_top (@MainDb.customer_groups (Etl.main SAMPLE_ROWS)) top)
    by compute_done.
  split; [done|].
  destruct (top_customers_bounded_sorted_and_leading scan_forward scan_backward
              SAMPLE_ROWS (Etl.main SAMPLE_ROWS) 2 Hk)
    as [(_ & _ & Hfile) (_ & _ & Hstore)].
  destruct (Hfile top Hf) as [Hhead Hall].
  destruct (Hstore top Hs) as [Hhead' Hall'].
  exact (conj Hhead (conj Hall (conj Hhead' Hall'))).
Defined.

(** C8 as stated fails on its last part: when two customers tie for the
    highest count, the source leaves the order of the tied groups to the
    engine, and the execution behind top-customers can put one of them first
    while the execution behind top-customer-payment-methods selects the
    other. *)
Lemma top_customer_differs_on_ties :
  let df :=
    [ sample_row 1 8 15 "B001" "Completed" "C001" "Sedan" (Some "Card");
      sample_row 1 9 45 "B002" "Completed" "C002" "SUV" (Some "Cash") ] in
  @Main.get_top_customers scan_forward 1 df =
    [TopCustomer.mk (Some "C001") 1] ∧
  @Main.get_top_customer_payment_methods scan_backward df =
    [CustomerPaymentMethod.mk (Some "C002") (Some "Cash") 1] ∧
  @MainDb.get_top_customers scan_forward 1 (Etl.main df) =
    [TopCustomer.mk (Some "C001") 1] ∧
  @MainDb.get_top_customer_payment_methods scan_backward (Etl.main df) =
    [CustomerPaymentMethod.mk (Some "C002") (Some "Cash") 1].
Proof. by vm_compute. Qed.

(** * Further properties of the code *)

(** ** The load step: batches *)

Lemma concat_chunks_take {A} (items : list A) (size m : nat) :
  concat ((λ j, take size (drop (j * size) items)) <$> seq 0 m) =
  take (m * size) items.
Proof.
  induction m as [|m IH]; [done|].
  rewrite seq_S, fmap_app, concat_app, IH. simpl.
  rewrite app_nil_r, take_take_drop. f_equal. lia.
Qed.

Lemma chunk_count_covers (len size : nat) :
  1 ≤ size → len ≤ (len + size - 1) / size * size.
Proof.
  intros Hsize.
  pose proof (Nat.div_mod_eq (len + size - 1) size) as Hdiv.
  pose proof (Nat.mod_upper_bound (len + size - 1) size) as Hmod.
  nia.
Qed.

Lemma chunk_start_inside (len size j : nat) :
  1 ≤ size → j < (len + size - 1) / size → j * size < len.
Proof.
  intros Hsize Hj.
  pose proof (Nat.div_mod_eq (len + size - 1) size) as Hdiv.
  pose proof (Nat.mod_upper_bound (len + size - 1) size) as Hmod.
  nia.
Qed.

Lemma concat_chunk_iterable {A} (items : list A) (size : nat) :
  1 ≤ size → concat (Etl.chunk_iterable items size) = items.
Proof.
  intros Hsize. unfold Etl.chunk_iterable.
  rewrite concat_chunks_take. apply take_ge. by apply chunk_count_covers.
Qed.

(** X1. For a batch size of at least one, the batches of [chunk_iterable]
    put end to end are the input list, and every batch holds at least one
    and at most [size] items. *)
Theorem chunk_iterable_partitions {A} (items : list A) (size : nat) :
  1 ≤ size →
  concat (Etl.chunk_iterable items size) = items ∧
  Forall (λ batch, 1 ≤ length batch ≤ size) (Etl.chunk_iterable items size).
Proof.
  intros Hsize. split; [by apply concat_chunk_iterable|].
  apply Forall_forall. unfold Etl.chunk_iterable.
  intros batch (j & -> & Hj)%list_elem_of_fmap.
  apply elem_of_seq in Hj as [_ Hj]. simpl in Hj.
  pose proof (chunk_start_inside (length items) size j Hsize Hj).
  rewrite length_take, length_drop. lia.
Qed.

Lemma chunk_iterable_partitions_witness :
  1 ≤ 2 ∧
  concat (Etl.chunk_iterable [10; 20; 30; 40; 50] 2) = [10; 20; 30; 40; 50].
Proof.
  split; [lia|].
  apply (chunk_iterable_partitions [10; 20; 30; 40; 50] 2). lia.
Defined.

(** ** The load step: conflict-skipping inserts *)

(** The row-at-a-time step that the statements of [insert_batch] fold. *)
Lemma insert_fold_count (rows table : list row) (n : nat) :
  foldl (λ acc r,
           let '(table', k) := Etl.insert_do_nothing acc.1 r in
           (table', acc.2 + k))
        (table, n) rows =
  ((Etl.insert_batch table rows).1, n + (Etl.insert_batch table rows).2).
Proof.
  unfold Etl.insert_batch. revert table n.
  induction rows as [|r rows IH]; intros table n; simpl.
  { f_equal. lia. }
  destruct (Etl.insert_do_nothing table r) as [table' k]. simpl.
  rewrite (IH table' (n + k)), (IH table' k). simpl. f_equal. lia.
Qed.

Lemma insert_batch_app (table l1 l2 : list row) :
  Etl.insert_batch table (l1 ++ l2) =
  ((Etl.insert_batch (Etl.insert_batch table l1).1 l2).1,
   (Etl.insert_batch table l1).2
     + (Etl.insert_batch (Etl.insert_batch table l1).1 l2).2).
Proof.
  unfold Etl.insert_batch at 1. rewrite foldl_app.
  fold (Etl.insert_batch table l1).
  destruct (Etl.insert_batch table l1) as [t1 n1]. simpl.
  apply insert_fold_count.
Qed.

Lemma upsert_batches_concat (batches : list (list row)) (table : list row)
    (n : nat) :
  foldl (λ acc batch,
           let '(table', rowcount) := Etl.insert_batch acc.1 batch in
           (table', acc.2 + rowcount))
        (table, n) batches =
  ((Etl.insert_batch table (concat batches)).1,
   n + (Etl.insert_batch table (concat batches)).2).
Proof.
  revert table n. induction batches as [|batch batches IH]; intros table n.
  { simpl. f_equal. unfold Etl.insert_batch. simpl. lia. }
  simpl. rewrite insert_batch_app.
  destruct (Etl.insert_batch table batch) as [t1 n1]. simpl.
  rewrite IH. simpl. f_equal. lia.
Qed.

Lemma upsert_rows_one_statement (table rows : list row) (size : nat) :
  1 ≤ size → Etl.upsert_rows table rows size = Etl.insert_batch table rows.
Proof.
  intros Hsize. unfold Etl.upsert_rows.
  rewrite upsert_batches_concat, concat_chunk_iterable by done.
  by destruct (Etl.insert_batch table rows).
Qed.

(** X2. For any batch size of at least one, [upsert_rows] ends with the
    table and the inserted count of a single statement that carries all the
    rows: the batch size changes neither. *)
Theorem upsert_rows_batch_size_irrelevant
    (table rows : list row) (size1 size2 : nat) :
  1 ≤ size1 → 1 ≤ size2 →
  Etl.upsert_rows table rows size1 = Etl.insert_batch table rows ∧
  Etl.upsert_rows table rows size1 = Etl.upsert_rows table rows size2.
Proof.
  intros H1 H2. by rewrite !upsert_rows_one_statement.
Qed.

Lemma upsert_rows_batch_size_irrelevant_witness :
  (1 ≤ 1 ∧ 1 ≤ 1000) ∧
  Etl.upsert_rows [] (Etl.normalize_dataframe SAMPLE_ROWS) 1 =
  Etl.upsert_rows [] (Etl.normalize_dataframe SAMPLE_ROWS) 1000.
Proof.
  split; [lia|].
  apply (upsert_rows_batch_size_irrelevant []
           (Etl.normalize_dataframe SAMPLE_ROWS) 1 1000); lia.
Defined.

Lemma insert_batch_cons (table rows : list row) (r : row) :
  Etl.insert_batch table (r :: rows) =
  ((Etl.insert_batch (Etl.insert_do_nothing table r).1 rows).1,
   (Etl.insert_do_nothing table r).2
     + (Etl.insert_batch (Etl.insert_do_nothing table r).1 rows).2).
Proof.
  unfold Etl.insert_batch at 1. simpl.
  destruct (Etl.insert_do_nothing table r) as [t1 k]. simpl.
  apply insert_fold_count.
Qed.

Lemma insert_batch_appends (rows table : list row) :
  table `prefix_of` (Etl.insert_batch table rows).1 ∧
  length (Etl.insert_batch table rows).1 =
    length table + (Etl.insert_batch table rows).2 ∧
  (Etl.insert_batch table rows).2 ≤ length rows.
Proof.
  revert table. induction rows as [|r rows IH]; intros table.
  { unfold Etl.insert_batch. simpl. split; [done|lia]. }
  rewrite insert_batch_cons. simpl. unfold Etl.insert_do_nothing.
  destruct (decide (Booking_ID r ∈ Booking_ID <$> table)); simpl.
  - destruct (IH table) as (Hp & Hl & Hn). split; [done|lia].
  - destruct (IH (table ++ [r])) as (Hp & Hl & Hn).
    rewrite length_app in Hl. simpl in Hl. split; [|lia].
    etrans; [|exact Hp]. by apply prefix_app_r.
Qed.

Lemma insert_batch_covers (rows table : list row) (r : row) :
  r ∈ rows ∨ r ∈ table →
  Booking_ID r ∈ Booking_ID <$> (Etl.insert_batch table rows).1.
Proof.
  revert table. induction rows as [|r0 rows IH]; intros table.
  { intros [Hr|Hr]; [by apply elem_of_nil in Hr|].
    by apply list_elem_of_fmap_2. }
  rewrite insert_batch_cons. simpl. unfold Etl.insert_do_nothing.
  destruct (decide (Booking_ID r0 ∈ Booking_ID <$> table)) as [Hin|Hnin]; simpl.
  - intros [[->|Hr]%elem_of_cons|Hr].
    + destruct (insert_batch_appends rows table) as ([k ->] & _).
      rewrite fmap_app. apply elem_of_app. by left.
    + apply IH. by left.
    + apply IH. by right.
  - intros [[->|Hr]%elem_of_cons|Hr]; apply IH.
    + right. apply elem_of_app. right. by left.
    + by left.
    + right. apply elem_of_app. by left.
Qed.

Lemma insert_batch_all_present (rows table : list row) :
  Forall (λ r, Booking_ID r ∈ Booking_ID <$> table) rows →
  Etl.insert_batch table rows = (table, 0).
Proof.
  induction 1 as [|r rows Hr Hrows IH]; [done|].
  rewrite insert_batch_cons. unfold Etl.insert_do_nothing.
  rewrite decide_True by done. simpl. by rewrite IH.
Qed.


(** X3. For a batch size of at least one, [upsert_rows] only appends: the
    rows already in the table stay as they are and where they are, the table
    grows by exactly the reported number of inserted rows, which is at most
    the number of rows offered, and a table without duplicate booking
    identifiers stays without them. *)
Theorem upsert_rows_only_appends (table rows : list row) (size : nat) :
  1 ≤ size →
  table `prefix_of` (Etl.upsert_rows table rows size).1 ∧
  length (Etl.upsert_rows table rows size).1 =
    length table + (Etl.upsert_rows table rows size).2 ∧
  (Etl.upsert_rows table rows size).2 ≤ length rows ∧
  (NoDup (Booking_ID <$> table) →
   NoDup (Booking_ID <$> (Etl.upsert_rows table rows size).1)).
Proof.
  intros Hsize. rewrite upsert_rows_one_statement by done.
  destruct (insert_batch_appends rows table) as (Hp & Hl & Hn).
  repeat split; [done..|]. apply insert_batch_NoDup.
Qed.

Lemma upsert_rows_only_appends_witness :
  1 ≤ 1000 ∧
  length (Etl.upsert_rows (Etl.main SAMPLE_ROWS)
            (Etl.normalize_dataframe SAMPLE_ROWS) 1000).1 =
    length (Etl.main SAMPLE_ROWS)
    + (Etl.upsert_rows (Etl.main SAMPLE_ROWS)
         (Etl.normalize_dataframe SAMPLE_ROWS) 1000).2.
Proof.
  split; [lia|].
  apply (upsert_rows_only_appends (Etl.main SAMPLE_ROWS)
           (Etl.normalize_dataframe SAMPLE_ROWS) 1000). lia.
Defined.

(** X4. Loading is idempotent: once rows have been upserted, upserting the
    same rows again, with any batch size, inserts nothing and leaves the
    table as it is. *)
Theorem upsert_rows_twice (table rows : list row) (size size' : nat) :
  1 ≤ size → 1 ≤ size' →
  Etl.upsert_rows (Etl.upsert_rows table rows size).1 rows size' =
  ((Etl.upsert_rows table rows size).1, 0).
Proof.
  intros Hsize Hsize'. rewrite !upsert_rows_one_statement by done.
  apply insert_batch_all_present, Forall_forall. intros r Hr.
  apply insert_batch_covers. by left.
Qed.

Lemma upsert_rows_twice_witness :
  (1 ≤ 1000 ∧ 1 ≤ 2) ∧
  Etl.upsert_rows
    (Etl.upsert_rows [] (Etl.normalize_dataframe SAMPLE_ROWS) 1000).1
    (Etl.normalize_dataframe SAMPLE_ROWS) 2 =
  ((Etl.upsert_rows [] (Etl.normalize_dataframe SAMPLE_ROWS) 1000).1, 0).
Proof.
  split; [lia|].
  apply (upsert_rows_twice [] (Etl.normalize_dataframe SAMPLE_ROWS) 1000 2);
    lia.
Defined.


(** ** The load step: normalization *)



(** ** The file-backed process *)

Lemma serve_keeps_state (req : Main.request) (σ : Main.app_state) :
  (Main.serve req σ).2 = σ.
Proof.
  destruct req as [|limit status vehicle_type customer_id|booking_id]; simpl.
  - done.
  - destruct (Query 100 1 1000 limit); [|done].
    unfold Main.get_bookings. by destruct (Main.df_cache σ).
  - unfold Main.get_booking_by_id. destruct (Main.df_cache σ); [|done].
    by destruct (filter _ _).
Qed.

Lemma serve_all_keeps_state (reqs : list Main.request) (σ : Main.app_state) :
  Main.serve_all reqs σ = ((λ req, (Main.serve req σ).1) <$> reqs, σ).
Proof.
  induction reqs as [|req reqs IH]; [done|]. simpl.
  pose proof (serve_keeps_state req σ) as Hreq.
  destruct (Main.serve req σ) as [r σ1]. simpl in Hreq. subst σ1.
  by rewrite IH.
Qed.

(** X8. Over a whole run of the file-backed application (load at startup,
    any sequence of health, listing and lookup requests, save at shutdown)
    the file is written back with the content it had at startup, and every
    request is answered from the startup snapshot: earlier requests leave no
    trace in the cache. *)
Theorem lifespan_is_a_pass_through
    (reqs : list Main.request) (σ : Main.app_state) :
  (Main.lifespan reqs σ).2 =
    Main.mkState (Main.csv_file σ) (Some (Main.csv_file σ)) ∧
  (Main.lifespan reqs σ).1 =
    (λ req, (Main.serve req (Main.load_df σ)).1) <$> reqs.
Proof.
  unfold Main.lifespan. rewrite serve_all_keeps_state. done.
Qed.

Section health_check.
Context `{OrderBy}.

(** X9. The health check and the unfiltered listing agree: with the cache
    loaded, the listing without filters succeeds and its total_found is the
    row count the health check reports, and it returns the smaller of the
    limit and that count; the same holds in the store-backed variant. A
    filter supplied as the empty string is treated as absent. *)
Theorem unfiltered_listing_counts_every_row
    (limit : nat) (csv df table : list row)
    (status vehicle_type customer_id : option string) :
  let σ := Main.mkState csv (Some df) in
  (Main.get_bookings limit None None None σ).1 =
    Ok (BookingsPage.mk (take limit df) (Main.root σ)
          (limit `min` Main.root σ)) ∧
  BookingsPage.total_found (MainDb.get_bookings limit None None None table) =
    MainDb.root table ∧
  BookingsPage.returned (MainDb.get_bookings limit None None None table) =
    limit `min` MainDb.root table ∧
  Main.get_bookings limit (Some EmptyString) vehicle_type customer_id σ =
    Main.get_bookings limit None vehicle_type customer_id σ ∧
  Main.get_bookings limit status (Some EmptyString) customer_id σ =
    Main.get_bookings limit status None customer_id σ ∧
  Main.get_bookings limit status vehicle_type (Some EmptyString) σ =
    Main.get_bookings limit status vehicle_type None σ ∧
  MainDb.get_bookings limit (Some EmptyString) vehicle_type customer_id table =
    MainDb.get_bookings limit None vehicle_type customer_id table ∧
  MainDb.get_bookings limit status (Some EmptyString) customer_id table =
    MainDb.get_bookings limit status None customer_id table ∧
  MainDb.get_bookings limit status vehicle_type (Some EmptyString) table =
    MainDb.get_bookings limit status vehicle_type None table.
Proof.
  intros σ. repeat split.
  - unfold Main.get_bookings, Main.root. simpl. by rewrite length_take.
  - unfold MainDb.get_bookings, MainDb.root. simpl.
    by rewrite length_take, length_order_by.
Qed.

End health_check.

(** ** Keys and order of the aggregates *)

Lemma group_by_keys {R K E} `{EqDecision K}
    (key : R → K) (select : K → list R → E) (key_of : E → K)
    (rows : list R) :
  (∀ k g, key_of (select k g) = k) →
  key_of <$> group_by key select rows = remove_dups (key <$> rows).
Proof.
  intros Hkey. unfold group_by. rewrite <- list_fmap_compose.
  rewrite <- (list_fmap_id (remove_dups (key <$> rows))) at 2.
  apply list_fmap_ext. intros _ k _. apply Hkey.
Qed.

(** Each key of the selected rows appears once among the entries of a
    grouped and ordered query. *)
Lemma ordered_group_keys `{OrderBy} {R K E} `{EqDecision K}
    (key : R → K) (select : K → list R → E) (key_of : E → K)
    (Rel : relation E) `{!RelDecision Rel} (rows : list R) :
  (∀ k g, key_of (select k g) = k) →
  NoDup (key_of <$> order_by Rel (group_by key select rows)) ∧
  ∀ k, k ∈ key_of <$> order_by Rel (group_by key select rows) ↔
       k ∈ key <$> rows.
Proof.
  intros Hkey.
  assert (key_of <$> order_by Rel (group_by key select rows)
          ≡ₚ remove_dups (key <$> rows)) as Hperm.
  { by rewrite order_by_perm, (group_by_keys _ _ _ _ Hkey). }
  split.
  - rewrite Hperm. apply NoDup_remove_dups.
  - intros k. rewrite Hperm. apply elem_of_remove_dups.
Qed.

Lemma NoDup_fmap_coarser {A B C} (f : A → B) (h : A → C) (l : list A) :
  (∀ x y, x ∈ l → y ∈ l → h x = h y → f x = f y) →
  NoDup (f <$> l) → NoDup (h <$> l).
Proof.
  induction l as [|a l IH]; intros Hfh; [constructor|].
  rewrite !fmap_cons, !NoDup_cons. intros [Ha Hl]. split.
  - intros (x & Hx & Hxl)%list_elem_of_fmap. apply Ha.
    rewrite (Hfh a x); [by apply list_elem_of_fmap_2|by left|by right|done].
  - apply IH; [|done]. intros x y Hx Hy. apply Hfh; by right.
Qed.

(** Under an ascending order with NULLS LAST, entries whose keys are all
    present and pairwise different are in strictly ascending key order. *)
Lemma asc_strict {A K' K} `{Lexico K} (filler : K) (proj : K' → K)
    (key : A → option K') (sort_key : A → bool * K) (l : list A) :
  (∀ e, sort_key e = nulls_last filler (proj <$> key e)) →
  (∀ x y, proj x = proj y → x = y) →
  Forall (λ e, is_Some (key e)) l →
  NoDup (key <$> l) →
  StronglySorted (asc sort_key) l →
  ∃ ks, key <$> l = Some <$> ks ∧
        StronglySorted (λ a b, lexico (proj a) (proj b)) ks.
Proof.
  intros Hsk Hinj. induction l as [|e l IH]; intros Hsome Hnd Hsorted.
  { exists []. split; [done|constructor]. }
  apply Forall_cons in Hsome as [[k Hk] Hsome].
  rewrite fmap_cons in Hnd. apply NoDup_cons in Hnd as [He Hnd].
  apply StronglySorted_cons in Hsorted as [Hall Hsorted].
  destruct (IH Hsome Hnd Hsorted) as (ks & Hks & Hstrict).
  exists (k :: ks). split; [by rewrite !fmap_cons, Hk, Hks|].
  constructor; [done|]. apply Forall_forall. intros k' Hk'.
  assert (Some k' ∈ key <$> l) as (e' & Hke' & He')%list_elem_of_fmap.
  { rewrite Hks. by apply list_elem_of_fmap_2. }
  rewrite Forall_forall in Hall. specialize (Hall e' He').
  unfold asc in Hall. rewrite !Hsk, Hk, <- Hke' in Hall. simpl in Hall.
  destruct Hall as [[Hb|[_ Hlt]]|Heq].
  - by destruct Hb.
  - done.
  - destruct He. injection Heq as Heq. apply Hinj in Heq. subst k'.
    rewrite Hk, Hke'. by apply list_elem_of_fmap_2.
Qed.

Lemma string_key_inj (s1 s2 : string) : string_key s1 = string_key s2 → s1 = s2.
Proof.
  unfold string_key. intros Hs. apply string_to_list_inj.
  revert Hs. generalize (string_to_list s1) (string_to_list s2).
  induction l as [|a l IH]; intros [|b l']; simpl; try done.
  intros [= Hab Hl]. f_equal; [|by apply IH].
  by rewrite <- (ascii_nat_embedding a), <- (ascii_nat_embedding b), Hab.
Qed.

Lemma extract_dow_lt_7 (d : date) : extract_dow d < 7.
Proof. unfold extract_dow. apply Nat.mod_upper_bound. lia. Qed.

Section ascending_series.
Context `{OrderBy}.

Lemma hourly_strict (cnt : list row → nat) (rows : list row) :
  ∃ hs,
    HourlyBookings.hour <$>
      order_by (asc (λ e, nulls_last 0 (HourlyBookings.hour e)))
        (group_by (λ r, t_hour <$> Time r)
           (λ k g, HourlyBookings.mk k (cnt g))
           (filter (λ r, is_Some (Time r)) rows)) = Some <$> hs ∧
    StronglySorted lt hs.
Proof.
  apply (asc_strict 0 id HourlyBookings.hour
           (λ e, nulls_last 0 (HourlyBookings.hour e))).
  - intros e. by destruct (HourlyBookings.hour e).
  - done.
  - apply Forall_forall.
    intros e (r & [Hr _]%list_elem_of_filter & ->)%elem_of_order_by%elem_of_group_by.
    simpl. by apply fmap_is_Some.
  - by apply ordered_group_keys.
  - apply order_by_sorted; apply _.
Qed.

Lemma monthly_strict (cnt : list row → nat) (rows : list row) :
  ∃ ms,
    MonthlyBookings.month <$>
      order_by
        (asc (λ e, nulls_last [] (string_key <$> MonthlyBookings.month e)))
        (group_by (λ r, year_month <$> Date r)
           (λ k g, MonthlyBookings.mk k (cnt g))
           (filter (λ r, is_Some (Date r)) rows)) = Some <$> ms ∧
    StronglySorted (λ a b, lexico (string_key a) (string_key b)) ms.
Proof.
  apply (asc_strict [] string_key MonthlyBookings.month
           (λ e, nulls_last [] (string_key <$> MonthlyBookings.month e))).
  - done.
  - apply string_key_inj.
  - apply Forall_forall.
    intros e (r & [Hr _]%list_elem_of_filter & ->)%elem_of_order_by%elem_of_group_by.
    simpl. by apply fmap_is_Some.
  - by apply ordered_group_keys.
  - apply order_by_sorted; apply _.
Qed.

Lemma weekly_strict (cnt : list row → nat) (rows : list row) :
  let out :=
    order_by (asc (λ e, nulls_last 0 (WeeklyBookings.weekday_num e)))
      (group_by
         (λ r, (extract_dow <$> Date r,
                Date r ≫= λ d, weekday_name_of (extract_dow d)))
         (λ k g, WeeklyBookings.mk k.1 k.2 (cnt g))
         (filter (λ r, is_Some (Date r)) rows)) in
  ∃ ns,
    WeeklyBookings.weekday_num <$> out = Some <$> ns ∧
    StronglySorted lt ns ∧
    Forall (λ n, n < 7) ns ∧
    WeeklyBookings.weekday_name <$> out = weekday_name_of <$> ns.
Proof.
  intros out.
  assert (Hout : ∀ e, e ∈ out →
            ∃ d, WeeklyBookings.weekday_num e = Some (extract_dow d) ∧
                 WeeklyBookings.weekday_name e =
                   weekday_name_of (extract_dow d)).
  { intros e (r & [[d Hd] _]%list_elem_of_filter & ->)%elem_of_order_by%elem_of_group_by.
    exists d. simpl. by rewrite Hd. }
  destruct (asc_strict 0 id WeeklyBookings.weekday_num
              (λ e, nulls_last 0 (WeeklyBookings.weekday_num e)) out)
    as (ns & Hns & Hsorted).
  - intros e. by destruct (WeeklyBookings.weekday_num e).
  - done.
  - apply Forall_forall. intros e (d & -> & _)%Hout. by eexists.
  - apply (NoDup_fmap_coarser
             (λ e, (WeeklyBookings.weekday_num e, WeeklyBookings.weekday_name e))).
    + intros x y (dx & Hx & Hx')%Hout (dy & Hy & Hy')%Hout Hxy.
      rewrite Hx', Hy', Hx, Hy. rewrite Hx, Hy in Hxy.
      injection Hxy as Hxy. by rewrite Hxy.
    + apply ordered_group_keys. by intros [].
  - apply order_by_sorted; apply _.
  - exists ns. split; [done|]. split; [done|]. split.
    + apply Forall_forall. intros n Hn.
      assert (Some n ∈ WeeklyBookings.weekday_num <$> out)
        as (e & Hne & (d & Hd & _)%Hout)%list_elem_of_fmap.
      { rewrite Hns. by apply list_elem_of_fmap_2. }
      rewrite Hd in Hne. injection Hne as ->. apply extract_dow_lt_7.
    + transitivity ((λ o, o ≫= weekday_name_of)
                      <$> (WeeklyBookings.weekday_num <$> out)).
      * rewrite <- list_fmap_compose. apply list_fmap_ext.
        intros i e Hi. simpl.
        destruct (Hout e) as (d & -> & ->); [|done].
        by eapply list_elem_of_lookup_2.
      * rewrite Hns, <- list_fmap_compose. done.
Qed.

(** X10. Whatever the engine, in both variants: bookings-per-hour lists
    hours that are all present and strictly increasing (no hour twice);
    bookings-per-weekday lists weekday numbers that are strictly increasing
    and below 7, each with its weekday name; bookings-per-month lists months
    that are strictly increasing in character order. *)
Theorem time_series_are_strictly_ascending (csv table : list row) :
  (∃ hs, HourlyBookings.hour <$> Main.get_bookings_per_hour csv = Some <$> hs ∧
         StronglySorted lt hs) ∧
  (∃ ns, WeeklyBookings.weekday_num <$> Main.get_bookings_per_weekday csv =
           Some <$> ns ∧
         StronglySorted lt ns ∧ Forall (λ n, n < 7) ns ∧
         WeeklyBookings.weekday_name <$> Main.get_bookings_per_weekday csv =
           weekday_name_of <$> ns) ∧
  (∃ ms, MonthlyBookings.month <$> Main.get_bookings_per_month csv =
           Some <$> ms ∧
         StronglySorted (λ a b, lexico (string_key a) (string_key b)) ms) ∧
  (∃ hs, HourlyBookings.hour <$> MainDb.get_bookings_per_hour table =
           Some <$> hs ∧
         StronglySorted lt hs) ∧
  (∃ ns, WeeklyBookings.weekday_num <$> MainDb.get_bookings_per_weekday table =
           Some <$> ns ∧
         StronglySorted lt ns ∧ Forall (λ n, n < 7) ns ∧
         WeeklyBookings.weekday_name <$> MainDb.get_bookings_per_weekday table =
           weekday_name_of <$> ns) ∧
  (∃ ms, MonthlyBookings.month <$> MainDb.get_bookings_per_month table =
           Some <$> ms ∧
         StronglySorted (λ a b, lexico (string_key a) (string_key b)) ms).
Proof.
  repeat split.
  - apply (hourly_strict (count_distinct Main.booking_id_expr)).
  - apply (weekly_strict (count_distinct Main.booking_id_expr)).
  - apply (monthly_strict (count_distinct Main.booking_id_expr)).
  - apply (hourly_strict (count_distinct Booking_ID)).
  - apply (weekly_strict (count_distinct Booking_ID)).
  - apply (monthly_strict (count_distinct Booking_ID)).
Qed.

End ascending_series.

Lemma recorded_payment_methods (P : row → Prop) `{∀ r, Decision (P r)}
    (rows : list row) (o : option string) :
  (∀ r, P r ↔
        Payment_Method r ≠ None ∧ Payment_Method r ≠ Some EmptyString) →
  o ∈ Payment_Method <$> filter P rows ↔
  ∃ m, o = Some m ∧ m ≠ EmptyString ∧ Some m ∈ Payment_Method <$> rows.
Proof.
  intros HP. rewrite list_elem_of_fmap. split.
  - intros (r & -> & [[Hn He]%HP Hr]%list_elem_of_filter).
    destruct (Payment_Method r) as [m|] eqn:Hm; [|done].
    exists m. split; [done|]. split; [congruence|].
    rewrite <- Hm. by apply list_elem_of_fmap_2.
  - intros (m & -> & Hm & (r & Hr & Hin)%list_elem_of_fmap).
    exists r. split; [done|]. apply list_elem_of_filter.
    split; [|done]. apply HP. rewrite <- Hr. split; congruence.
Qed.

Section breakdowns.
Context `{OrderBy}.



(** X12. Whatever the engine, in both variants the payment-method statistics
    are in descending order of their booking counts, list each method once,
    and list exactly the methods that some record carries as a non-empty
    value: a missing or empty payment method is never a category, also in
    the store, where the load step has turned missing methods into empty
    strings. *)
Theorem payment_methods_exclude_unrecorded (csv table : list row) :
  (StronglySorted (desc PaymentMethodStats.total_bookings)
     (Main.get_payment_method_stats csv) ∧
   NoDup (PaymentMethodStats.payment_method <$>
            Main.get_payment_method_stats csv) ∧
   ∀ o, o ∈ PaymentMethodStats.payment_method <$>
              Main.get_payment_method_stats csv ↔
        ∃ m, o = Some m ∧ m ≠ EmptyString ∧ Some m ∈ Payment_Method <$> csv) ∧
  (StronglySorted (desc PaymentMethodStats.total_bookings)
     (MainDb.get_payment_method_stats table) ∧
   NoDup (PaymentMethodStats.payment_method <$>
            MainDb.get_payment_method_stats table) ∧
   ∀ o, o ∈ PaymentMethodStats.payment_method <$>
              MainDb.get_payment_method_stats table ↔
        ∃ m, o = Some m ∧ m ≠ EmptyString ∧ Some m ∈ Payment_Method <$> table).
Proof.
  split; (split; [apply order_by_sorted; apply _|]); (split;
    [ by apply ordered_group_keys |]).
  - intros o.
    rewrite <- (recorded_payment_methods Main.payment_recorded csv o)
      by done.
    by apply ordered_group_keys.
  - intros o.
    rewrite <- (recorded_payment_methods MainDb.payment_recorded table o)
      by done.
    by apply ordered_group_keys.
Qed.

End breakdowns.

(** ** Truncated rankings *)

Lemma take_order_by_desc `{OrderBy} {A} (f : A → nat) (l : list A) (k : nat) :
  let ranked := take k (order_by (desc f) l) in
  (∀ e, e ∈ ranked → e ∈ l) ∧
  length ranked = k `min` length l ∧
  StronglySorted (desc f) ranked ∧
  ∀ e e', e ∈ ranked → e' ∈ l → e' ∉ ranked → f e' ≤ f e.
Proof.
  intros ranked. split; [|split; [|split]].
  - intros e He%elem_of_take_1. by apply elem_of_order_by in He.
  - unfold ranked. by rewrite length_take, length_order_by.
  - apply StronglySorted_take, order_by_sorted; apply _.
  - intros e e' He He' Hout.
    pose proof (order_by_sorted (desc f) _ _ l) as Hsorted.
    rewrite <- (take_drop k (order_by (desc f) l)) in Hsorted.
    apply StronglySorted_app in Hsorted as (Hcross & _ & _).
    apply (Hcross e e' He).
    apply (elem_of_order_by (desc f)) in He'.
    rewrite <- (take_drop k (order_by (desc f) l)) in He'.
    apply elem_of_app in He' as [?|?]; done.
Qed.

(** X13. Peak hours and top customers are true rankings, in both variants
    and whatever the engines: the entries returned are entries of the full
    hourly, respectively per-customer, aggregate; their number is the smaller
    of the limit and the number of groups; and no group left out has more
    distinct bookings than a group returned. *)
Theorem rankings_keep_the_largest_groups
    (E1 E2 : OrderBy) (csv table : list row) (limit : nat) :
  ((∀ e, e ∈ @Main.get_peak_hours E1 limit csv →
         e ∈ @Main.get_bookings_per_hour E2 csv) ∧
   length (@Main.get_peak_hours E1 limit csv) =
     limit `min` length (@Main.get_bookings_per_hour E2 csv) ∧
   ∀ e e', e ∈ @Main.get_peak_hours E1 limit csv →
           e' ∈ @Main.get_bookings_per_hour E2 csv →
           e' ∉ @Main.get_peak_hours E1 limit csv →
           HourlyBookings.unique_bookings e'
             ≤ HourlyBookings.unique_bookings e) ∧
  ((∀ e, e ∈ @Main.get_top_customers E1 limit csv →
         e ∈ @Main.customer_groups csv) ∧
   length (@Main.get_top_customers E1 limit csv) =
     limit `min` length (@Main.customer_groups csv) ∧
   ∀ e e', e ∈ @Main.get_top_customers E1 limit csv →
           e' ∈ @Main.customer_groups csv →
           e' ∉ @Main.get_top_customers E1 limit csv →
           TopCustomer.total_bookings e' ≤ TopCustomer.total_bookings e) ∧
  ((∀ e, e ∈ @MainDb.get_peak_hours E1 limit table →
         e ∈ @MainDb.get_bookings_per_hour E2 table) ∧
   length (@MainDb.get_peak_hours E1 limit table) =
     limit `min` length (@MainDb.get_bookings_per_hour E2 table) ∧
   ∀ e e', e ∈ @MainDb.get_peak_hours E1 limit table →
           e' ∈ @MainDb.get_bookings_per_hour E2 table →
           e' ∉ @MainDb.get_peak_hours E1 limit table →
           HourlyBookings.unique_bookings e'
             ≤ HourlyBookings.unique_bookings e) ∧
  ((∀ e, e ∈ @MainDb.get_top_customers E1 limit table →
         e ∈ @MainDb.customer_groups table) ∧
   length (@MainDb.get_top_customers E1 limit table) =
     limit `min` length (@MainDb.customer_groups table) ∧
   ∀ e e', e ∈ @MainDb.get_top_customers E1 limit table →
           e' ∈ @MainDb.customer_groups table →
           e' ∉ @MainDb.get_top_customers E1 limit table →
           TopCustomer.total_bookings e' ≤ TopCustomer.total_bookings e).
Proof.
  split; [|split; [|split]].
  - destruct (@take_order_by_desc E1 _ HourlyBookings.unique_bookings
                (@Main.hourly_groups csv) limit) as (Hin & Hlen & _ & Htop).
    unfold Main.get_bookings_per_hour.
    split; [|split].
    + intros e He. apply elem_of_order_by. by apply Hin.
    + by rewrite length_order_by.
    + intros e e' He He'%elem_of_order_by. by apply Htop.
  - destruct (@take_order_by_desc E1 _ TopCustomer.total_bookings
                (@Main.customer_groups csv) limit) as (Hin & Hlen & _ & Htop).
    done.
  - destruct (@take_order_by_desc E1 _ HourlyBookings.unique_bookings
                (@MainDb.hourly_groups table) limit)
      as (Hin & Hlen & _ & Htop).
    unfold MainDb.get_bookings_per_hour.
    split; [|split].
    + intros e He. apply elem_of_order_by. by apply Hin.
    + by rewrite length_order_by.
    + intros e e' He He'%elem_of_order_by. by apply Htop.
  - destruct (@take_order_by_desc E1 _ TopCustomer.total_bookings
                (@MainDb.customer_groups table) limit)
      as (Hin & Hlen & _ & Htop).
    done.
Qed.

(** ** The two variants on the same file *)















Section same_file.
Context `{OrderBy}.



End same_file.

(** ** Lookup *)

Lemma filter_head_split {A} (P : A → Prop) `{∀ x, Decision (P x)}
    (l rest : list A) (x : A) :
  filter P l = x :: rest →
  ∃ before after,
    l = before ++ x :: after ∧ Forall (λ y, ¬ P y) before ∧ P x.
Proof.
  induction l as [|a l IH]; [done|].
  destruct (decide (P a)) as [Ha|Ha].
  - rewrite filter_cons_True by done. intros [= -> _].
    exists [], l. by repeat split.
  - rewrite filter_cons_False by done.
    intros (before & after & -> & Hbefore & Hx)%IH.
    exists (a :: before), after. repeat split; [|done]. by constructor.
Qed.



(** X16. When several cached rows carry the identifier looked up, the
    file-backed lookup answers with the first of them in file order: no row
    before the one returned has that identifier. *)
Theorem lookup_returns_first_match
    (csv df : list row) (booking_id : string) (r : row) :
  (Main.get_booking_by_id booking_id (Main.mkState csv (Some df))).1 = Ok r →
  ∃ before after,
    df = before ++ r :: after ∧
    Forall (λ r', Booking_ID r' ≠ Some (wrap_quotes booking_id)) before ∧
    Booking_ID r = Some (wrap_quotes booking_id).
Proof.
  unfold Main.get_booking_by_id. simpl.
  destruct (filter _ df) as [|r0 l] eqn:Hf; [done|]. simpl. intros [= ->].
  by apply filter_head_split in Hf.
Qed.

Lemma lookup_returns_first_match_witness :
  let first := sample_row 1 9 45 "B002" "Cancelled" "C002" "SUV" (Some "Cash") in
  let again := sample_row 3 9 45 "B002" "Completed" "C002" "SUV" (Some "Cash") in
  let df := SAMPLE_ROWS ++ [again] in
  (Main.get_booking_by_id "B002" (Main.mkState df (Some df))).1 = Ok first ∧
  ∃ before after,
    df = before ++ first :: after ∧
    Forall (λ r', Booking_ID r' ≠ Some (wrap_quotes "B002")) before ∧
    Booking_ID first = Some (wrap_quotes "B002").
Proof.
  intros first again df.
  assert (Hfound :
    (Main.get_booking_by_id "B002" (Main.mkState df (Some df))).1 = Ok first)
    by (by vm_compute).
  split; [exact Hfound|].
  exact (lookup_returns_first_match df df "B002" first Hfound).
Defined.

(** ** Customers *)

Section customers.
Context `{OrderBy}.

Lemma vehicle_customers (ids cust : row → option string) (rows : list row) :
  Forall (λ e,
    ∃ customers : gset string,
      (∀ c, c ∈ customers ↔
            ∃ r, r ∈ rows ∧
                 Vehicle_Type r = VehicleTypeStats.vehicle_type e ∧
                 cust r = Some c) ∧
      VehicleTypeStats.unique_customers e = size customers)
    (order_by (desc VehicleTypeStats.total_bookings)
       (group_by Vehicle_Type
          (λ k g, VehicleTypeStats.mk k
                    (count_distinct ids g) (count_distinct cust g))
          rows)).
Proof.
  apply Forall_forall.
  intros e (r0 & Hr0 & ->)%elem_of_order_by%elem_of_group_by. simpl.
  eexists. split; [|apply count_distinct_size].
  intros c. rewrite elem_of_list_to_set, list_elem_of_omap.
  setoid_rewrite list_elem_of_filter. split.
  - intros (r & [Hv Hr] & Hc). by exists r.
  - intros (r & Hr & Hv & Hc). by exists r.
Qed.

(** X17. In the vehicle-type statistics of both variants, whatever the
    engine, the unique_customers of an entry is the number of distinct
    customer identifiers (quote-stripped in the file-backed variant, as
    stored in the store-backed one) among the records of that vehicle type:
    a customer with several bookings of the type counts once. *)
Theorem vehicle_types_count_distinct_customers (csv table : list row) :
  Forall (λ e,
    ∃ customers : gset string,
      (∀ c, c ∈ customers ↔
            ∃ r, r ∈ csv ∧
                 Vehicle_Type r = VehicleTypeStats.vehicle_type e ∧
                 strip_quotes <$> Customer_ID r = Some c) ∧
      VehicleTypeStats.unique_customers e = size customers)
    (Main.get_vehicle_type_stats csv) ∧
  Forall (λ e,
    ∃ customers : gset string,
      (∀ c, c ∈ customers ↔
            ∃ r, r ∈ table ∧
                 Vehicle_Type r = VehicleTypeStats.vehicle_type e ∧
                 Customer_ID r = Some c) ∧
      VehicleTypeStats.unique_customers e = size customers)
    (MainDb.get_vehicle_type_stats table).
Proof.
  split.
  - apply (vehicle_customers Main.booking_id_expr Main.customer_id_expr).
  - apply (vehicle_customers Booking_ID Customer_ID).
Qed.

Lemma elem_of_take_1_eq {A} (l : list A) (x y : A) :
  x ∈ take 1 l → y ∈ take 1 l → x = y.
Proof.
  destruct l as [|a l]; simpl.
  - by intros ?%elem_of_nil.
  - rewrite take_0. by intros ->%list_elem_of_singleton ->%list_elem_of_singleton.
Qed.

(** The joined query behind [get_top_customer_payment_methods], for either
    variant. *)
Lemma joined_single_customer (cust ids : row → option string)
    (rows : list row) (groups : list TopCustomer.t) :
  let cond := λ (v : row) (t : TopCustomer.t),
    is_Some (cust v) ∧ cust v = TopCustomer.customer_id t in
  let out :=
    order_by (desc CustomerPaymentMethod.bookings_for_method)
      (group_by
         (λ vt : row * TopCustomer.t,
            (TopCustomer.customer_id vt.2, Payment_Method vt.1))
         (λ k g, CustomerPaymentMethod.mk k.1 k.2
                   (count_distinct (λ vt, ids vt.1) g))
         (join cond rows
            (take 1 (order_by (desc TopCustomer.total_bookings) groups)))) in
  (∀ e, e ∈ out →
     is_Some (CustomerPaymentMethod.customer_id e) ∧
     ∃ t, t ∈ groups ∧
          TopCustomer.customer_id t = CustomerPaymentMethod.customer_id e ∧
          ∀ t', t' ∈ groups →
                TopCustomer.total_bookings t' ≤ TopCustomer.total_bookings t) ∧
  (∀ e1 e2, e1 ∈ out → e2 ∈ out →
     CustomerPaymentMethod.customer_id e1 =
     CustomerPaymentMethod.customer_id e2) ∧
  StronglySorted (desc CustomerPaymentMethod.bookings_for_method) out ∧
  NoDup (CustomerPaymentMethod.payment_method <$> out).
Proof.
  intros cond out.
  set (top := take 1 (order_by (desc TopCustomer.total_bookings) groups)).
  assert (Hout : ∀ e, e ∈ out →
            ∃ v t, v ∈ rows ∧ t ∈ top ∧ cond v t ∧
                   CustomerPaymentMethod.customer_id e =
                     TopCustomer.customer_id t).
  { intros e ([v t] & (Hv & Ht & Hc)%elem_of_join & ->)%elem_of_order_by%elem_of_group_by.
    by exists v, t. }
  assert (Hsame : ∀ e1 e2, e1 ∈ out → e2 ∈ out →
            CustomerPaymentMethod.customer_id e1 =
            CustomerPaymentMethod.customer_id e2).
  { intros e1 e2 (v1 & t1 & _ & Ht1 & _ & ->)%Hout
                 (v2 & t2 & _ & Ht2 & _ & ->)%Hout.
    by rewrite (elem_of_take_1_eq _ t1 t2 Ht1 Ht2). }
  split; [|split; [done|split]].
  - intros e (v & t & Hv & Ht & [Hsome Hc] & ->)%Hout. split.
    { by rewrite <- Hc. }
    destruct (take_order_by_desc TopCustomer.total_bookings groups 1)
      as (Hin & _ & _ & Hmax).
    exists t. split; [by apply Hin|]. split; [done|].
    intros t' Ht'.
    destruct (decide (t' ∈ top)) as [Htop|Htop].
    + by rewrite (elem_of_take_1_eq _ t' t Htop Ht).
    + by apply Hmax.
  - apply order_by_sorted; apply _.
  - apply (NoDup_fmap_coarser
             (λ e, (CustomerPaymentMethod.customer_id e,
                    CustomerPaymentMethod.payment_method e))).
    + intros x y Hx Hy Hxy. by rewrite (Hsame x y), Hxy.
    + apply ordered_group_keys. by intros [].
Qed.

(** X18. Whatever the engine, in both variants the top customer's payment
    methods concern one customer only: every entry carries the same customer
    identifier, which is never missing and belongs to a customer with the
    maximal distinct-booking count (on a tie, one of the tied customers);
    the entries are in descending order of their counts and no payment
    method is listed twice. *)
Theorem top_customer_payment_methods_single_customer (csv table : list row) :
  ((∀ e, e ∈ Main.get_top_customer_payment_methods csv →
      is_Some (CustomerPaymentMethod.customer_id e) ∧
      ∃ t, t ∈ Main.customer_groups csv ∧
           TopCustomer.customer_id t = CustomerPaymentMethod.customer_id e ∧
           ∀ t', t' ∈ Main.customer_groups csv →
                 TopCustomer.total_bookings t'
                   ≤ TopCustomer.total_bookings t) ∧
   (∀ e1 e2, e1 ∈ Main.get_top_customer_payment_methods csv →
             e2 ∈ Main.get_top_customer_payment_methods csv →
      CustomerPaymentMethod.customer_id e1 =
      CustomerPaymentMethod.customer_id e2) ∧
   StronglySorted (desc CustomerPaymentMethod.bookings_for_method)
     (Main.get_top_customer_payment_methods csv) ∧
   NoDup (CustomerPaymentMethod.payment_method <$>
            Main.get_top_customer_payment_methods csv)) ∧
  ((∀ e, e ∈ MainDb.get_top_customer_payment_methods table →
      is_Some (CustomerPaymentMethod.customer_id e) ∧
      ∃ t, t ∈ MainDb.customer_groups table ∧
           TopCustomer.customer_id t = CustomerPaymentMethod.customer_id e ∧
           ∀ t', t' ∈ MainDb.customer_groups table →
                 TopCustomer.total_bookings t'
                   ≤ TopCustomer.total_bookings t) ∧
   (∀ e1 e2, e1 ∈ MainDb.get_top_customer_payment_methods table →
             e2 ∈ MainDb.get_top_customer_payment_methods table →
      CustomerPaymentMethod.customer_id e1 =
      CustomerPaymentMethod.customer_id e2) ∧
   StronglySorted (desc CustomerPaymentMethod.bookings_for_method)
     (MainDb.get_top_customer_payment_methods table) ∧
   NoDup (CustomerPaymentMethod.payment_method <$>
            MainDb.get_top_customer_payment_methods table)).
Proof.
  split.
  - apply (joined_single_customer Main.customer_id_expr Main.booking_id_expr
             csv (Main.customer_groups csv)).
  - apply (joined_single_customer Customer_ID Booking_ID
             table (MainDb.customer_groups table)).
Qed.

End customers.

(** ** Results that no engine can change *)

Lemma where_sql_spec_elem (status vehicle_type customer_id : option string)
    (table : list row) (r : row) :
  r ∈ MainDb.where_sql status vehicle_type customer_id table ↔
  matches_filters id status vehicle_type customer_id r ∧ r ∈ table.
Proof. by rewrite where_sql_spec, list_elem_of_filter. Qed.



Lemma order_by_unique (E1 E2 : OrderBy) {A} (R : relation A)
    `{!RelDecision R, !Transitive R, !Total R} (l : list A) :
  (∀ x y, x ∈ l → y ∈ l → R x y → R y x → x = y) →
  @order_by E1 _ R _ l = @order_by E2 _ R _ l.
Proof.
  intros Hanti. apply (StronglySorted_unique_strong R).
  - intros x y Hx%elem_of_order_by Hy%elem_of_order_by. by apply Hanti.
  - by apply order_by_sorted.
  - by apply order_by_sorted.
  - by rewrite !order_by_perm.
Qed.

Lemma asc_both_ways {A K} `{Lexico K, !StrictOrder (@lexico K _)}
    (k : A → K) (x y : A) :
  asc k x y → asc k y x → k x = k y.
Proof.
  intros [Hxy|Hxy] [Hyx|Hyx]; try done.
  destruct (irreflexivity lexico (k x)). by trans (k y).
Qed.

Lemma nulls_last_inj {A} (filler : A) (o1 o2 : option A) :
  nulls_last filler o1 = nulls_last filler o2 → o1 = o2.
Proof. destruct o1, o2; simpl; congruence. Qed.

Lemma group_by_entry_by_key {R K E} `{EqDecision K}
    (key : R → K) (select : K → list R → E) (key_of : E → K)
    (rows : list R) (e1 e2 : E) :
  (∀ k g, key_of (select k g) = k) →
  e1 ∈ group_by key select rows → e2 ∈ group_by key select rows →
  key_of e1 = key_of e2 → e1 = e2.
Proof.
  intros Hkey (r1 & _ & ->)%elem_of_group_by (r2 & _ & ->)%elem_of_group_by.
  rewrite !Hkey. by intros ->.
Qed.

Lemma hourly_unique (E1 E2 : OrderBy) (cnt : list row → nat)
    (rows : list row) :
  let groups :=
    group_by (λ r, t_hour <$> Time r)
      (λ k g, HourlyBookings.mk k (cnt g))
      (filter (λ r, is_Some (Time r)) rows) in
  @order_by E1 _ (asc (λ e, nulls_last 0 (HourlyBookings.hour e))) _ groups =
  @order_by E2 _ (asc (λ e, nulls_last 0 (HourlyBookings.hour e))) _ groups.
Proof.
  intros groups. apply order_by_unique; [apply _..|].
  intros x y Hx Hy Hxy Hyx.
  refine (group_by_entry_by_key _ _ HourlyBookings.hour _ x y _ Hx Hy _);
    [done|].
  eapply nulls_last_inj, asc_both_ways; [exact Hxy|exact Hyx].
Qed.

Lemma monthly_unique (E1 E2 : OrderBy) (cnt : list row → nat)
    (rows : list row) :
  let groups :=
    group_by (λ r, year_month <$> Date r)
      (λ k g, MonthlyBookings.mk k (cnt g))
      (filter (λ r, is_Some (Date r)) rows) in
  @order_by E1 _
    (asc (λ e, nulls_last [] (string_key <$> MonthlyBookings.month e))) _
    groups =
  @order_by E2 _
    (asc (λ e, nulls_last [] (string_key <$> MonthlyBookings.month e))) _
    groups.
Proof.
  intros groups. apply order_by_unique; [apply _..|].
  intros x y Hx Hy Hxy Hyx.
  refine (group_by_entry_by_key _ _ MonthlyBookings.month _ x y _ Hx Hy _);
    [done|].
  pose proof (asc_both_ways _ x y Hxy Hyx) as Hk.
  apply nulls_last_inj in Hk.
  destruct (MonthlyBookings.month x), (MonthlyBookings.month y);
    simpl in Hk; try done.
  injection Hk as Hk. by rewrite (string_key_inj _ _ Hk).
Qed.

Lemma weekly_unique (E1 E2 : OrderBy) (cnt : list row → nat)
    (rows : list row) :
  let groups :=
    group_by
      (λ r, (extract_dow <$> Date r,
             Date r ≫= λ d, weekday_name_of (extract_dow d)))
      (λ k g, WeeklyBookings.mk k.1 k.2 (cnt g))
      (filter (λ r, is_Some (Date r)) rows) in
  @order_by E1 _ (asc (λ e, nulls_last 0 (WeeklyBookings.weekday_num e))) _
    groups =
  @order_by E2 _ (asc (λ e, nulls_last 0 (WeeklyBookings.weekday_num e))) _
    groups.
Proof.
  intros groups. apply order_by_unique; [apply _..|].
  intros x y Hx Hy Hxy Hyx.
  pose proof (asc_both_ways _ x y Hxy Hyx) as Hk. apply nulls_last_inj in Hk.
  refine (group_by_entry_by_key _ _
            (λ e, (WeeklyBookings.weekday_num e, WeeklyBookings.weekday_name e))
            _ x y _ Hx Hy _); [by intros []|].
  apply elem_of_group_by in Hx as (rx & [[dx Hdx] _]%list_elem_of_filter & ->).
  apply elem_of_group_by in Hy as (ry & [[dy Hdy] _]%list_elem_of_filter & ->).
  simpl in *. rewrite Hdx, Hdy in *. simpl in *.
  injection Hk as Hk. by rewrite Hk.
Qed.

(** X19. Three time series and the store-backed listing do not depend on the
    engine at all: bookings per hour, per weekday and per month are ordered
    by a key that no two entries share, and the listing of a loaded table is
    ordered by date, time and then the unique booking identifier, so any two
    executions return the same entries in the same order. *)
Theorem ordered_results_do_not_depend_on_engine
    (E1 E2 : OrderBy) (csv table : list row) (limit : nat)
    (status vehicle_type customer_id : option string) :
  @Main.get_bookings_per_hour E1 csv = @Main.get_bookings_per_hour E2 csv ∧
  @Main.get_bookings_per_weekday E1 csv =
    @Main.get_bookings_per_weekday E2 csv ∧
  @Main.get_bookings_per_month E1 csv = @Main.get_bookings_per_month E2 csv ∧
  @MainDb.get_bookings_per_hour E1 table =
    @MainDb.get_bookings_per_hour E2 table ∧
  @MainDb.get_bookings_per_weekday E1 table =
    @MainDb.get_bookings_per_weekday E2 table ∧
  @MainDb.get_bookings_per_month E1 table =
    @MainDb.get_bookings_per_month E2 table ∧
  @MainDb.get_bookings E1 limit status vehicle_type customer_id (Etl.main csv) =
    @MainDb.get_bookings E2 limit status vehicle_type customer_id
      (Etl.main csv).
Proof.
  repeat apply conj.
  - apply (hourly_unique E1 E2 (count_distinct Main.booking_id_expr)).
  - apply (weekly_unique E1 E2 (count_distinct Main.booking_id_expr)).
  - apply (monthly_unique E1 E2 (count_distinct Main.booking_id_expr)).
  - apply (hourly_unique E1 E2 (count_distinct Booking_ID)).
  - apply (weekly_unique E1 E2 (count_distinct Booking_ID)).
  - apply (monthly_unique E1 E2 (count_distinct Booking_ID)).
  - unfold MainDb.get_bookings.
    rewrite (order_by_unique E1 E2 (asc MainDb.listing_key)); [done|].
    intros x y [_ Hx]%where_sql_spec_elem [_ Hy]%where_sql_spec_elem Hxy Hyx.
    pose proof (asc_both_ways _ x y Hxy Hyx) as Hk.
    unfold MainDb.listing_key in Hk. injection Hk as _ _ Hid.
    apply nulls_last_inj in Hid.
    apply (NoDup_fmap_elem_inj Booking_ID (Etl.main csv));
      [apply main_NoDup|done..|].
    destruct (Booking_ID x) as [bx|], (Booking_ID y) as [by'|];
      simpl in Hid; try done.
    injection Hid as Hid. by rewrite (string_key_inj _ _ Hid).
Qed.

(** ** The file-backed handlers and the store on the same file *)




Section handlers_on_the_same_file.
Context `{OrderBy}.






End handlers_on_the_same_file.

